(** * node-opskins-manager: the inventory cache of [lib/OpskinsManager.js]

    A shallow embedding of the manager: the values the code compares
    ([==], [===], truthiness), the cache methods installed on the array
    prototype ([findByName], [findIndexById], [addItem], [removeItem]),
    start-up ([OpskinsManager], [setInventory], [getInventory]) and the
    two remote operations ([buy], [withdraw]), followed by the properties
    of the cache that the specification states. *)

From Stdlib Require Import ZArith String Ascii Lia.
From stdpp Require Import base list strings gmap pretty.

Open Scope Z_scope.

(** ** Values

    The values the code stores in record fields, compares and tests for
    truthiness: the primitive values of the language.  Numbers are the
    integers (item ids, app ids, prices in cents) and [JNaN]; fractional
    and infinite numbers, and the 53-bit rounding of very large ones, are
    outside the model. *)

Module Js.

Inductive JsVal : Type :=
  | JUndefined
  | JNull
  | JBool (b : bool)
  | JNum (n : Z)
  | JNaN
  | JStr (s : string).

#[global] Instance JsVal_eq_dec : EqDecision JsVal.
Proof. solve_decision. Defined.

(** [!!v]: the falsy values are [undefined], [null], [false], [0], [NaN]
    and the empty string. *)
Definition truthy (v : JsVal) : bool :=
  match v with
  | JUndefined | JNull | JNaN => false
  | JBool b => b
  | JNum n => negb (n =? 0)
  | JStr s => negb (String.eqb s "")
  end.

(** *** String to number

    The conversion [==] applies to a string compared with a number:
    (ASCII) white space is trimmed, the empty string is [0], [0x]/[0o]/[0b]
    prefix an unsigned integer in that radix, and a decimal literal has
    an optional sign, digits with an optional fraction, and an optional
    exponent.  A literal whose value is not an integer, [Infinity], and
    every string that is not a numeric literal, yield [JNaN] here: none
    of them is equal to any number of the model (a decimal so close to
    an integer that it rounds to it is outside the model, as the
    rounding is). *)

Definition isWhiteSpace (c : ascii) : bool :=
  match nat_of_ascii c with
  | 9%nat | 10%nat | 11%nat | 12%nat | 13%nat | 32%nat => true
  | _ => false
  end.

Fixpoint trimStart (l : list ascii) : list ascii :=
  match l with
  | c :: r => if isWhiteSpace c then trimStart r else l
  | [] => []
  end.

Definition trim (l : list ascii) : list ascii :=
  rev (trimStart (rev (trimStart l))).

Definition digitVal (radix : Z) (c : ascii) : option Z :=
  let n := Z.of_nat (nat_of_ascii c) in
  let d := if (48 <=? n) && (n <=? 57) then n - 48
           else if (97 <=? n) && (n <=? 102) then n - 87
           else if (65 <=? n) && (n <=? 70) then n - 55
           else radix in
  if d <? radix then Some d else None.

Fixpoint digitsAcc (radix : Z) (acc : Z) (l : list ascii) : option Z :=
  match l with
  | [] => Some acc
  | c :: r =>
      match digitVal radix c with
      | Some d => digitsAcc radix (acc * radix + d) r
      | None => None
      end
  end.

(** A non-empty run of digits in the given radix. *)
Definition digits (radix : Z) (l : list ascii) : option Z :=
  match l with
  | [] => None
  | _ => digitsAcc radix 0 l
  end.

(** Splits at the first character satisfying [p], which is dropped. *)
Fixpoint splitAtChar (p : ascii -> bool) (l : list ascii)
  : list ascii * option (list ascii) :=
  match l with
  | [] => ([], None)
  | c :: r =>
      if p c then ([], Some r)
      else let '(a, b) := splitAtChar p r in (c :: a, b)
  end.

Definition isChar (n : nat) (c : ascii) : bool := Nat.eqb (nat_of_ascii c) n.

Definition signed (l : list ascii) : Z * list ascii :=
  match l with
  | c :: r =>
      if isChar 45 c then (-1, r)
      else if isChar 43 c then (1, r)
      else (1, l)
  | [] => (1, [])
  end.

(** The unsigned part of a decimal literal: [ip], [ip.], [ip.fp] or
    [.fp], then an optional exponent. *)
Definition decimalVal (l : list ascii) : JsVal :=
  let '(mant, ex) := splitAtChar (fun c => isChar 101 c || isChar 69 c) l in
  let '(ip, fp) := splitAtChar (isChar 46) mant in
  let frac := default [] fp in
  let e := match ex with
           | None => Some 0
           | Some x => let '(sg, d) := signed x in
                       (fun v => sg * v) <$> digits 10 d
           end in
  let m := match ip, fp with
           | [], None => None
           | _, _ => digits 10 (ip ++ frac)
           end in
  match m, e with
  | Some m, Some e =>
      let shift := e - Z.of_nat (length frac) in
      if 0 <=? shift then JNum (m * 10 ^ shift)
      else if m mod 10 ^ (- shift) =? 0 then JNum (m / 10 ^ (- shift))
      else JNaN
  | _, _ => JNaN
  end.

Definition negate (v : JsVal) : JsVal :=
  match v with
  | JNum n => JNum (- n)
  | _ => v
  end.

Definition StringToNumber (s : string) : JsVal :=
  match trim (list_ascii_of_string s) with
  | [] => JNum 0
  | (c0 :: c1 :: r) as l =>
      if isChar 48 c0 && (isChar 120 c1 || isChar 88 c1)
      then from_option JNum JNaN (digits 16 r)
      else if isChar 48 c0 && (isChar 111 c1 || isChar 79 c1)
      then from_option JNum JNaN (digits 8 r)
      else if isChar 48 c0 && (isChar 98 c1 || isChar 66 c1)
      then from_option JNum JNaN (digits 2 r)
      else let '(sg, d) := signed l in
           if sg =? 1 then decimalVal d else negate (decimalVal d)
  | l => let '(sg, d) := signed l in
         if sg =? 1 then decimalVal d else negate (decimalVal d)
  end.

(** [Number(v)]. *)
Definition ToNumber (v : JsVal) : JsVal :=
  match v with
  | JUndefined => JNaN
  | JNull => JNum 0
  | JBool b => JNum (if b then 1 else 0)
  | JNum n => JNum n
  | JNaN => JNaN
  | JStr s => StringToNumber s
  end.

(** [String(v)], as string concatenation ([+]) converts its operands;
    integers are printed digit by digit (the exponent form of those from
    [1e21] on is outside the model). *)
Definition ToString (v : JsVal) : string :=
  match v with
  | JUndefined => "undefined"
  | JNull => "null"
  | JBool b => if b then "true" else "false"
  | JNum n => pretty n
  | JNaN => "NaN"
  | JStr s => s
  end.

(** *** Equality *)

Definition numEq (x y : JsVal) : bool :=
  match x, y with
  | JNum a, JNum b => a =? b
  | _, _ => false
  end.

(** [x === y]: same type and same value; [NaN] equals nothing. *)
Definition strictEq (x y : JsVal) : bool :=
  match x, y with
  | JUndefined, JUndefined => true
  | JNull, JNull => true
  | JBool a, JBool b => Bool.eqb a b
  | JStr a, JStr b => String.eqb a b
  | (JNum _ | JNaN), (JNum _ | JNaN) => numEq x y
  | _, _ => false
  end.

Inductive JsType := TUndefined | TNull | TBoolean | TNumber | TString.

Definition typeOf (v : JsVal) : JsType :=
  match v with
  | JUndefined => TUndefined
  | JNull => TNull
  | JBool _ => TBoolean
  | JNum _ | JNaN => TNumber
  | JStr _ => TString
  end.

(** [x == y]: values of one type compare as [===]; [null] and
    [undefined] equal each other and nothing else; a number and a string
    compare after converting the string; a boolean is converted to a
    number first. *)
Definition looseEq (x y : JsVal) : bool :=
  match typeOf x, typeOf y with
  | TUndefined, (TUndefined | TNull) | TNull, (TUndefined | TNull) => true
  | TUndefined, _ | TNull, _ | _, TUndefined | _, TNull => false
  | TString, TString => strictEq x y
  | TNumber, TNumber => strictEq x y
  | TBoolean, TBoolean => strictEq x y
  | TNumber, TString => numEq x (ToNumber y)
  | TString, TNumber => numEq (ToNumber x) y
  | TBoolean, _ => numEq (ToNumber x) (ToNumber y)
  | _, TBoolean => numEq (ToNumber x) (ToNumber y)
  end.

End Js.
Export Js.

(** ** Objects, errors, and the outside world *)

(** An object as the code reads it: a finite map from property names to
    values; reading a missing property gives [undefined]. *)
Abbreviation Obj := (gmap string JsVal).

Definition get (o : Obj) (k : string) : JsVal := default JUndefined (o !! k).

Notation "o .[ k ]" := (get o k) (at level 1, left associativity, format "o .[ k ]").

Inductive JsError : Type :=
  | Error (message : string)
  | TypeError (message : string).

(** A call either returns or throws; nothing is mutated before a throw
    in the functions below. *)
Inductive Result (A : Type) : Type :=
  | Ok (a : A)
  | Throw (e : JsError).
Arguments Ok {A} a.
Arguments Throw {A} e.

#[global] Instance Result_ret : MRet Result := fun A a => Ok a.
#[global] Instance Result_bind : MBind Result := fun A B f r =>
  match r with
  | Ok a => f a
  | Throw e => Throw e
  end.

(** How a promise ends.  [CallbackThrew e]: a callback handed to the API
    client threw [e], so the promise is never settled. *)
Inductive Settled (A : Type) : Type :=
  | Resolved (a : A)
  | Rejected (e : JsError)
  | CallbackThrew (e : JsError).
Arguments Resolved {A} a.
Arguments Rejected {A} e.
Arguments CallbackThrew {A} e.

(** One offer of a withdrawal reply, and the summary [withdraw] resolves to. *)
Record Offer := {
  offer_items : list Obj;
  offer_bot_id : JsVal;
  offer_tradeoffer_id : JsVal;
  offer_tradeoffer_error : JsVal
}.

Record Summary := {
  items : list Obj;
  bot_id : JsVal;
  id : JsVal;
  tradeoffer_error : JsVal
}.

(** Calls that leave the manager, in the order they are issued. *)
Inductive Event : Type :=
  | FsRead (file : string)
  | FsSave (file : string) (content : list Obj)
  | ApiGetInventory
  | ApiSearch (query : Obj)
  | ApiBuyItems (ids : list JsVal) (total : JsVal)
  | ApiWithdrawInventoryItems (ids : list JsVal).

(** The remote trading platform, a black box: the arguments [(err, data)]
    it hands to the callback of each request.  [None] is a missing
    (falsy) [err], respectively a missing second argument. *)
Record Remote := {
  opskins_getInventory : option JsError * option (list Obj);
  opskins_search : Obj -> option JsError * option (list Obj);
  opskins_buyItems : list JsVal -> JsVal -> option JsError * list Obj;
  opskins_withdrawInventoryItems : list JsVal -> option JsError * list Offer
}.

(** What the manager acts on: the files of its storage, each holding
    the list of records last saved under its name, and the calls issued
    so far. *)
Record World := {
  files : gmap string (list Obj);
  calls : list Event
}.

(** Modelled from the spec: [read] of the FileStorage class
    ([./FileStorage], not among the sources).  It gives the list of
    records stored under [key], or the absent sentinel when there is no
    such file, and does not throw. *)
Definition FileStorage_read (key : string) (w : World) : option (list Obj) * World :=
  (files w !! key, {| files := files w; calls := calls w ++ [FsRead key] |}).

(** Modelled from the spec: [save] of the FileStorage class
    ([./FileStorage], not among the sources).  It writes [records] under
    [key], overwriting what was there; a write that fails, and the
    encoding of the records on disk, are not modelled. *)
Definition FileStorage_save (key : string) (records : list Obj) (w : World) : World :=
  {| files := <[key := records]> (files w);
     calls := calls w ++ [FsSave key records] |}.

(** A request to the remote platform is issued. *)
Definition request (e : Event) (w : World) : World :=
  {| files := files w; calls := calls w ++ [e] |}.

(** ** The manager *)

Record Manager := {
  apiKey : JsVal;
  appID : JsVal;
  contextID : JsVal;
  inventory : list Obj;
  world : World
}.

Definition withInventory (inv : list Obj) (m : Manager) : Manager :=
  {| apiKey := apiKey m; appID := appID m; contextID := contextID m;
     inventory := inv; world := world m |}.

Definition withWorld (w : World) (m : Manager) : Manager :=
  {| apiKey := apiKey m; appID := appID m; contextID := contextID m;
     inventory := inventory m; world := w |}.

(** The manager once it has issued the request [e]. *)
Definition requested (e : Event) (m : Manager) : Manager :=
  withWorld (request e (world m)) m.

(** ['inventory_' + apiKey + '_' + appID + '_' + contextID + '.json'] *)
Definition inventoryFile (m : Manager) : string :=
  "inventory_" +:+ ToString (apiKey m) +:+ "_" +:+ ToString (appID m)
    +:+ "_" +:+ ToString (contextID m) +:+ ".json".

(** *** Cache methods *)

(** The first record whose [name] is [==] to the argument, or [null]. *)
Fixpoint findByName (name : JsVal) (this : list Obj) : option Obj :=
  match this with
  | [] => None
  | element :: rest =>
      if looseEq element.["name"] name then Some element
      else findByName name rest
  end.

(** The argument of [findIndexById] and [removeItem]: an object, or a
    bare value. *)
Inductive Arg : Type :=
  | ArgObj (o : Obj)
  | ArgVal (v : JsVal).

(** [typeof item === 'object' ? item.id : item]; [typeof null] is
    ['object'], and reading a property of [null] throws. *)
Definition idOfArg (item : Arg) : Result JsVal :=
  match item with
  | ArgObj o => Ok o.["id"]
  | ArgVal JNull => Throw (TypeError "Cannot read property 'id' of null")
  | ArgVal v => Ok v
  end.

(** The scan of [findIndexById], from index [i] over the rest of the
    array: the first index whose record has an [id] [==] to the one
    sought, or [-1]. *)
Fixpoint findIndexFrom (id : JsVal) (i : Z) (rest : list Obj) : Z :=
  match rest with
  | [] => -1
  | element :: rest' =>
      if looseEq element.["id"] id then i
      else findIndexFrom id (i + 1) rest'
  end.

Definition findIndexById (item : Arg) (this : list Obj) : Result Z :=
  id ← idOfArg item;
  mret (findIndexFrom id 0 this).

(** [this.splice(start, 1)]: a negative [start] counts from the end. *)
Definition splice1 (start : Z) (this : list Obj) : list Obj :=
  let len := Z.of_nat (length this) in
  let actual := if start <? 0 then Z.max (len + start) 0 else Z.min start len in
  delete (Z.to_nat actual) this.

(** [self._inventoryStorage.save(inventoryFile, this)], where [self] and
    [inventoryFile] are those of the manager whose [setInventory]
    installed the methods.  The model has one manager in the process, so
    they are its own; a manager constructed later would install methods
    that save every cache under its own file name. *)
Definition persist (m : Manager) : Manager :=
  withWorld (FileStorage_save (inventoryFile m) (inventory m) (world m)) m.

(** The record [addItem] builds from its argument. *)
Definition normalize (item : Obj) : Obj :=
  {[ "id" := item.["id"];
     "name" := item.["name"];
     "appid" := item.["appid"];
     "contextid" := item.["contextid"] ]}.

Definition addItem (item : Obj) (m : Manager) : Result Manager :=
  let item := normalize item in
  index ← findIndexById (ArgObj item) (inventory m);
  if (index =? -1) && truthy item.["id"]
  then mret (persist (withInventory (inventory m ++ [item]) m))
  else mret m.

Definition removeItem (item : Arg) (m : Manager) : Result Manager :=
  index ← findIndexById item (inventory m);
  if negb (index =? -1)
  then mret (persist (withInventory (splice1 index (inventory m)) m))
  else mret m.

(** The four methods above are installed on the prototype shared by all
    arrays by plain assignment, which makes them enumerable: a [for-in]
    loop over any array visits its indices in order and then these four
    keys.  Each is an anonymous function assigned to a property: its
    [name] is the empty string, and it has none of the other properties
    the code reads. *)
Definition prototypeMethod : Obj := {[ "name" := JStr "" ]}.

Definition forIn (array : list Obj) : list Obj :=
  array ++ [prototypeMethod; prototypeMethod; prototypeMethod; prototypeMethod].

(** *** Start-up *)

(** [getInventory]: the request, then its callback [(err, { items })],
    which throws when handed no second argument. *)
Definition getInventory (api : Remote) (m : Manager) : Settled (list Obj) * Manager :=
  let m := requested ApiGetInventory m in
  match opskins_getInventory api with
  | (_, None) =>
      (CallbackThrew (TypeError "Cannot destructure property 'items' of undefined"), m)
  | (Some err, Some _) => (Rejected err, m)
  | (None, Some items) => (Resolved items, m)
  end.

(** [for (let i in items) this.inventory.addItem(items[i])], over the
    values the loop visits; a throw would end it and reach [.catch]. *)
Fixpoint addItems (visited : list Obj) (m : Manager) : Manager :=
  match visited with
  | [] => m
  | item :: rest =>
      match addItem item m with
      | Ok m' => addItems rest m'
      | Throw _ => m
      end
  end.

(** [setInventory], with the reply to the inventory request handled
    before any other operation on the manager. *)
Definition setInventory (api : Remote) (m : Manager) : Manager :=
  let m := withInventory [] m in
  let '(inventory, w) := FileStorage_read (inventoryFile m) (world m) in
  let m := withWorld w m in
  match inventory with
  | Some inventory => withInventory inventory m
  | None =>
      match getInventory api m with
      | (Resolved items, m) => addItems (forIn items) m
      | (_, m) => m
      end
  end.

Definition orDefault (v d : JsVal) : JsVal :=
  match v with
  | JUndefined => d
  | _ => v
  end.

(** The constructor, on the options object and the world it starts in:
    the manager it builds or the error it throws, and the world it
    leaves. *)
Definition OpskinsManager (options : Obj) (api : Remote) (w : World)
  : Result Manager * World :=
  let apiKey := options.["apiKey"] in
  let appID := orDefault options.["appID"] (JNum 730) in
  let contextID := orDefault options.["contextID"] (JNum 2) in
  if negb (truthy apiKey) then (Throw (Error "apiKey is required"), w)
  else
    let m := setInventory api
               {| apiKey := apiKey; appID := appID; contextID := contextID;
                  inventory := []; world := w |} in
    (Ok m, world m).

(** *** Buy *)

Definition quote : string := String "034"%char EmptyString.

Definition searchQuery (name max : JsVal) (m : Manager) : Obj :=
  let query : Obj :=
    {[ "search_item" := JStr (quote +:+ ToString name +:+ quote);
       "app" := JStr (ToString (appID m) +:+ "_" +:+ ToString (contextID m)) ]} in
  match typeOf max with
  | TNumber => <["max" := max]> query
  | _ => query
  end.

(** The selection loop of the search callback: the first visited value
    whose [name] is [===] to the requested one. *)
Fixpoint firstNamed (name : JsVal) (visited : list Obj) : option Obj :=
  match visited with
  | [] => None
  | sale :: rest =>
      if strictEq sale.["name"] name then Some sale
      else firstNamed name rest
  end.

Definition selectItemToBuy (name : JsVal) (sales : list Obj) : option Obj :=
  firstNamed name (forIn sales).

(** The callback of [buyItems]. *)
Definition buyItemsCallback (reply : option JsError * list Obj) (m : Manager)
  : Settled Obj * Manager :=
  match reply with
  | (Some err, _) => (Rejected err, m)
  | (None, []) =>
      (CallbackThrew (TypeError "Cannot read property 'new_itemid' of undefined"), m)
  | (None, first :: _) =>
      let item : Obj :=
        {[ "id" := first.["new_itemid"];
           "name" := first.["name"];
           "appid" := appID m;
           "contextid" := contextID m ]} in
      match addItem item m with
      | Ok m' => (Resolved item, m')
      | Throw e => (CallbackThrew e, m)
      end
  end.

(** The callback of [search], [(err, sales = [])]. *)
Definition searchCallback (name : JsVal) (reply : option JsError * option (list Obj))
    (api : Remote) (m : Manager) : Settled Obj * Manager :=
  let '(err, sales) := reply in
  let sales := default [] sales in
  match err, selectItemToBuy name sales with
  | Some err, _ => (Rejected err, m)
  | None, None => (Rejected (Error "Item wasn't found"), m)
  | None, Some itemToBuy =>
      let ids := [itemToBuy.["id"]] in
      let total := ToNumber itemToBuy.["amount"] in
      let m := requested (ApiBuyItems ids total) m in
      buyItemsCallback (opskins_buyItems api ids total) m
  end.

Definition buy (args : Obj) (api : Remote) (m : Manager) : Settled Obj * Manager :=
  let name := args.["name"] in
  let max := args.["max"] in
  match findByName name (inventory m) with
  | Some fromInventory => (Resolved fromInventory, m)
  | None =>
      let query := searchQuery name max m in
      let m := requested (ApiSearch query) m in
      searchCallback name (opskins_search api query) api m
  end.

(** *** Withdraw *)

(** The synchronous part: the optimistic removal, then the request. *)
Definition withdrawRequest (item : Obj) (m : Manager) : Result Manager :=
  m ← removeItem (ArgObj item) m;
  mret (requested (ApiWithdrawInventoryItems [item.["id"]]) m).

(** The callback of [withdrawInventoryItems]. *)
Definition withdrawCallback (item : Obj) (reply : option JsError * list Offer)
    (m : Manager) : Settled Summary * Manager :=
  match reply with
  | (Some err, _) =>
      match addItem item m with
      | Ok m' => (Rejected err, m')
      | Throw e => (CallbackThrew e, m)
      end
  | (None, []) =>
      (CallbackThrew (TypeError "Cannot read property 'items' of undefined"), m)
  | (None, offer :: _) =>
      (Resolved {| items := offer_items offer;
                   bot_id := offer_bot_id offer;
                   id := offer_tradeoffer_id offer;
                   tradeoffer_error := offer_tradeoffer_error offer |}, m)
  end.

Definition withdraw (item : Obj) (api : Remote) (m : Manager)
  : Settled Summary * Manager :=
  match withdrawRequest item m with
  | Throw e => (Rejected e, m)
  | Ok m' =>
      withdrawCallback item (opskins_withdrawInventoryItems api [item.["id"]]) m'
  end.

(** ** Notions the properties are stated with *)

(** A call of one of the two mutating cache methods. *)
Inductive CacheCall : Type :=
  | CallAddItem (item : Obj)
  | CallRemoveItem (item : Arg).

(** One call; a call that throws leaves the manager as it was. *)
Definition cacheCall (c : CacheCall) (m : Manager) : Manager :=
  let r := match c with
           | CallAddItem item => addItem item m
           | CallRemoveItem item => removeItem item m
           end in
  match r with
  | Ok m' => m'
  | Throw _ => m
  end.

Definition cacheCalls (cs : list CacheCall) (m : Manager) : Manager :=
  foldl (fun m c => cacheCall c m) m cs.

(** A manager with an empty cache. *)
Definition emptyManager (key app ctx : JsVal) (w : World) : Manager :=
  {| apiKey := key; appID := app; contextID := ctx; inventory := []; world := w |}.

(** The record's [id] matches ([==]) the id sought. *)
Definition hasId (v : JsVal) (r : Obj) : bool := looseEq r.["id"] v.

(** No record of the list has an id matching that of a later one. *)
Fixpoint distinctIds (inv : list Obj) : Prop :=
  match inv with
  | [] => True
  | r :: rest => Forall (fun s => hasId r.["id"] s = false) rest /\ distinctIds rest
  end.

(** How many records have an id matching [v]. *)
Definition countById (v : JsVal) (inv : list Obj) : nat :=
  length (filter (fun r => hasId v r = true) inv).

(** How many records have exactly the id [v]. *)
Definition countByExactId (v : JsVal) (inv : list Obj) : nat :=
  length (filter (fun r => r.["id"] = v) inv).

(** How many times the cache was persisted. *)
Definition isSave (e : Event) : bool :=
  match e with
  | FsSave _ _ => true
  | _ => false
  end.

Definition saves (m : Manager) : nat :=
  length (filter (fun e => isSave e = true) (calls (world m))).

(** The requests to the remote platform among the calls. *)
Definition isRemote (e : Event) : bool :=
  match e with
  | FsRead _ | FsSave _ _ => false
  | _ => true
  end.

Definition remoteCalls (es : list Event) : list Event :=
  filter (fun e => isRemote e = true) es.

(** The specification's deduplication by id, keeping first occurrences:
    in the order given, a record is kept when no record kept before it
    has a matching id. *)
Definition keepFirst (kept : list Obj) (r : Obj) : list Obj :=
  if existsb (hasId r.["id"]) kept then kept else kept ++ [r].

Definition dedupById (records : list Obj) : list Obj :=
  foldl keepFirst [] records.

(** The records with a truthy id. *)
Definition withId (records : list Obj) : list Obj :=
  filter (fun r => truthy r.["id"] = true) records.

(** The invariant of the cache: ids are truthy and pairwise distinct. *)
Definition cacheOk (inv : list Obj) : Prop :=
  distinctIds inv /\ Forall (fun r => truthy r.["id"] = true) inv.

(** A public operation on the manager; [buy] and [withdraw] come with
    the platform that answers their requests. *)
Inductive Operation : Type :=
  | DoAddItem (item : Obj)
  | DoRemoveItem (item : Arg)
  | DoBuy (args : Obj) (api : Remote)
  | DoWithdraw (item : Obj) (api : Remote).

(** The manager an operation leaves, however it ends. *)
Definition operate (op : Operation) (m : Manager) : Manager :=
  match op with
  | DoAddItem item => cacheCall (CallAddItem item) m
  | DoRemoveItem item => cacheCall (CallRemoveItem item) m
  | DoBuy args api => (buy args api m).2
  | DoWithdraw item api => (withdraw item api m).2
  end.

Definition session (ops : list Operation) (m : Manager) : Manager :=
  foldl (fun m op => operate op m) m ops.

(** The fields the constructor sets from its options, before
    [setInventory]. *)
Definition initialManager (options : Obj) (w : World) : Manager :=
  emptyManager options.["apiKey"]
    (orDefault options.["appID"] (JNum 730))
    (orDefault options.["contextID"] (JNum 2)) w.

(** The record [buy] builds from the first element of a purchase reply. *)
Definition boughtItem (first : Obj) (m : Manager) : Obj :=
  {[ "id" := first.["new_itemid"];
     "name" := first.["name"];
     "appid" := appID m;
     "contextid" := contextID m ]}.

(** The character occurs in the string. *)
Fixpoint occursIn (c : ascii) (s : string) : Prop :=
  match s with
  | EmptyString => False
  | String d s' => d = c \/ occursIn c s'
  end.

(** ** Sample data *)

Definition world0 : World := {| files := ∅; calls := [] |}.

Definition sampleManager : Manager :=
  emptyManager (JStr "key") (JNum 730) (JNum 2) world0.

Definition item5 : Obj :=
  {[ "id" := JNum 5; "name" := JStr "AK-47 | Redline";
     "appid" := JNum 730; "contextid" := JNum 2 ]}.

Definition item7 : Obj :=
  {[ "id" := JNum 7; "name" := JStr "AWP | Asiimov";
     "appid" := JNum 730; "contextid" := JNum 2 ]}.

(** A record without an id. *)
Definition anonymousItem : Obj := {[ "name" := JStr "Sticker" ]}.

(** The manager after [addItem(item5)]. *)
Definition stockedManager : Manager := cacheCalls [CallAddItem item5] sampleManager.

Definition saleA1 : Obj := {[ "id" := JNum 1; "name" := JStr "A"; "amount" := JNum 100 ]}.
Definition saleB2 : Obj := {[ "id" := JNum 2; "name" := JStr "B"; "amount" := JNum 200 ]}.
Definition saleA3 : Obj := {[ "id" := JNum 3; "name" := JStr "A"; "amount" := JNum 300 ]}.

(** A platform with nothing owned and nothing on sale, which refuses every
    purchase and withdrawal. *)
Definition refusingRemote : Remote :=
  {| opskins_getInventory := (None, Some []);
     opskins_search := fun _ => (None, Some []);
     opskins_buyItems := fun _ _ => (Some (Error "Bad Request"), []);
     opskins_withdrawInventoryItems := fun _ => (Some (Error "Bad Request"), []) |}.

(** The same platform with an inventory: [fetched]. *)
Definition remoteOwning (fetched : list Obj) : Remote :=
  {| opskins_getInventory := (None, Some fetched);
     opskins_search := opskins_search refusingRemote;
     opskins_buyItems := opskins_buyItems refusingRemote;
     opskins_withdrawInventoryItems := opskins_withdrawInventoryItems refusingRemote |}.

(** A platform that lists the sales A, B, A, and sells what is asked for
    as the new item 11. *)
Definition sellingRemote : Remote :=
  {| opskins_getInventory := (None, Some []);
     opskins_search := fun _ => (None, Some [saleA1; saleB2; saleA3]);
     opskins_buyItems := fun _ _ =>
       (None, [ {[ "new_itemid" := JNum 11; "name" := JStr "A" ]} ]);
     opskins_withdrawInventoryItems := fun ids =>
       (None, [ {| offer_items := []; offer_bot_id := JNum 42;
                   offer_tradeoffer_id := JNum 1001;
                   offer_tradeoffer_error := JNull |} ]) |}.

(** A platform that lists the sales A, B, A, and confirms a purchase
    without telling the id of the new item. *)
Definition vagueRemote : Remote :=
  {| opskins_getInventory := (None, Some []);
     opskins_search := opskins_search sellingRemote;
     opskins_buyItems := fun _ _ => (None, [ {[ "name" := JStr "A" ]} ]);
     opskins_withdrawInventoryItems := fun _ => (None, []) |}.

(** Options that give the key only. *)
Definition keyOnly : Obj := {[ "apiKey" := JStr "key" ]}.

(** * Properties *)

(** ** The model at work *)

Example StringToNumber_samples :
  (StringToNumber <$> ["5"; "05"; " 5 "; "-5"; "5.0"; "50e-1"; "0x1F"; ""; "1.5"; "five"])
  = [JNum 5; JNum 5; JNum 5; JNum (-5); JNum 5; JNum 5; JNum 31; JNum 0; JNaN; JNaN].
Proof. reflexivity. Qed.

Example looseEq_samples :
  looseEq (JStr "5") (JNum 5) = true /\
  looseEq (JStr "05") (JNum 5) = true /\
  looseEq (JStr "5") (JStr "05") = false /\
  looseEq JNull JUndefined = true /\
  looseEq JNull (JNum 0) = false /\
  looseEq (JStr "0") (JNum 0) = true /\
  looseEq JNaN JNaN = false /\
  strictEq (JStr "5") (JNum 5) = false /\
  strictEq (JStr "a") (JStr "A") = false.
Proof. repeat split; reflexivity. Qed.

Example inventoryFile_sample :
  inventoryFile sampleManager = "inventory_key_730_2.json".
Proof. reflexivity. Qed.

Example findIndexById_samples :
  let inv := [item5; item7] in
  findIndexById (ArgObj item7) inv = Ok 1 /\
  findIndexById (ArgVal (JStr "5")) inv = Ok 0 /\
  findIndexById (ArgVal (JNum 6)) inv = Ok (-1) /\
  findIndexById (ArgObj anonymousItem) inv = Ok (-1) /\
  findIndexById (ArgVal JNull) inv
  = Throw (TypeError "Cannot read property 'id' of null").
Proof. repeat split; reflexivity. Qed.

(** A purchase that goes through: the first sale named A is bought and
    the new item is cached and persisted. *)
Example buy_sample :
  let bought : Obj :=
    {[ "id" := JNum 11; "name" := JStr "A"; "appid" := JNum 730; "contextid" := JNum 2 ]} in
  exists m,
    buy {[ "name" := JStr "A"; "max" := JNum 500 ]} sellingRemote sampleManager
    = (Resolved bought, m) /\
    inventory m = [bought] /\
    files (world m) !! "inventory_key_730_2.json" = Some [bought] /\
    calls (world m)
    = [ApiSearch {[ "search_item" := JStr (quote +:+ "A" +:+ quote);
                    "app" := JStr "730_2"; "max" := JNum 500 ]};
       ApiBuyItems [JNum 1] (JNum 100);
       FsSave "inventory_key_730_2.json" [bought]].
Proof. eexists. repeat split; reflexivity. Qed.

(** A withdrawal that goes through: the record is gone from the cache. *)
Example withdraw_sample :
  exists m,
    withdraw item5 sellingRemote stockedManager
    = (Resolved {| items := []; bot_id := JNum 42; id := JNum 1001;
                   tradeoffer_error := JNull |}, m) /\
    inventory m = [] /\
    remoteCalls (calls (world m)) = [ApiWithdrawInventoryItems [JNum 5]].
Proof. eexists. repeat split; reflexivity. Qed.

(** A persisted file is adopted as it is, and nothing is fetched. *)
Example startup_with_file_sample :
  let w := {| files := {[ "inventory_key_730_2.json" := [item7] ]}; calls := [] |} in
  exists m,
    OpskinsManager keyOnly sellingRemote w = (Ok m, world m) /\
    inventory m = [item7] /\
    calls (world m) = [FsRead "inventory_key_730_2.json"].
Proof. eexists. repeat split; reflexivity. Qed.

(** ** Equality and truthiness *)

Lemma numEq_sym x y : numEq x y = numEq y x.
Proof. destruct x, y; simpl; auto using Z.eqb_sym. Qed.

Lemma strictEq_sym x y : strictEq x y = strictEq y x.
Proof.
  destruct x, y; simpl; auto using Z.eqb_sym, String.eqb_sym.
  by destruct b, b0.
Qed.

Lemma looseEq_sym x y : looseEq x y = looseEq y x.
Proof.
  destruct x, y; unfold looseEq; simpl typeOf; cbv iota;
    auto using numEq_sym, strictEq_sym.
Qed.

(** Every truthy value is [==] to itself ([NaN], the one value that is
    not, is falsy). *)
Lemma looseEq_refl v : truthy v = true -> looseEq v v = true.
Proof.
  destruct v; simpl; try done.
  - by destruct b.
  - intros _. apply Z.eqb_refl.
  - intros _. apply String.eqb_refl.
Qed.

Lemma strictEq_eq x y : strictEq x y = true -> x = y.
Proof.
  destruct x, y; simpl; try done.
  - intros H. apply Bool.eqb_prop in H. by subst.
  - intros H. apply Z.eqb_eq in H. by subst.
  - intros H. apply String.eqb_eq in H. by subst.
Qed.

Lemma strictEq_looseEq x y : strictEq x y = true -> looseEq x y = true.
Proof. destruct x, y; simpl; done. Qed.

Lemma hasId_sym (r s : Obj) : hasId r.["id"] s = hasId s.["id"] r.
Proof. apply looseEq_sym. Qed.

Lemma hasId_normalize (item : Obj) :
  truthy item.["id"] = true -> hasId item.["id"] (normalize item) = true.
Proof.
  intros Ht. unfold hasId. change (normalize item).["id"] with item.["id"].
  by apply looseEq_refl.
Qed.

(** ** The scan of [findIndexById] *)

Section Scan.
Implicit Types (v : JsVal) (i : Z) (l : list Obj).

Lemma findIndexFrom_cases v i l :
  0 <= i ->
  (findIndexFrom v i l = -1 /\ Forall (fun r => hasId v r = false) l) \/
  (exists l1 r l2,
      l = l1 ++ r :: l2 /\ Forall (fun s => hasId v s = false) l1 /\
      hasId v r = true /\ findIndexFrom v i l = i + Z.of_nat (length l1)).
Proof.
  revert i. induction l as [|x l IH]; intros i Hi; simpl.
  - left. split; [done | constructor].
  - destruct (looseEq x.["id"] v) eqn:Hx.
    + right. exists [], x, l. simpl. repeat split; auto. lia.
    + destruct (IH (i + 1)) as [[Hn Hall] | (l1 & r & l2 & -> & Hall & Hr & Hk)];
        [lia | |].
      * left. split; [done |]. by constructor.
      * right. exists (x :: l1), r, l2. simpl. repeat split; auto.
        rewrite Hk. lia.
Qed.

Lemma findIndexFrom_none v i l :
  0 <= i -> (findIndexFrom v i l =? -1) = forallb (fun r => negb (hasId v r)) l.
Proof.
  revert i. induction l as [|x l IH]; intros i Hi; simpl; [done |].
  unfold hasId at 1. destruct (looseEq x.["id"] v) eqn:Hx; simpl.
  - apply Z.eqb_neq. lia.
  - apply IH. lia.
Qed.

Lemma forallb_hasId v l :
  forallb (fun r => negb (hasId v r)) l = true <->
  Forall (fun r => hasId v r = false) l.
Proof.
  rewrite forallb_forall, Forall_forall. split; intros H r Hr.
  - apply list_elem_of_In in Hr. apply H in Hr. by destruct (hasId v r).
  - apply list_elem_of_In in Hr. apply H in Hr. by rewrite Hr.
Qed.

Lemma forallb_hasId_false v l :
  forallb (fun r => negb (hasId v r)) l = false ->
  exists r, r ∈ l /\ hasId v r = true.
Proof.
  induction l as [|x l IH]; simpl; [done |].
  destruct (hasId v x) eqn:Hx; simpl.
  - intros _. exists x. split; [left | done].
  - intros H. destruct (IH H) as (r & Hr & Hv). exists r. split; [by right | done].
Qed.

Lemma existsb_hasId v l :
  existsb (hasId v) l = negb (forallb (fun r => negb (hasId v r)) l).
Proof.
  induction l as [|x l IH]; simpl; [done |].
  rewrite IH. by destruct (hasId v x).
Qed.

Lemma splice1_middle l1 (r : Obj) l2 :
  splice1 (Z.of_nat (length l1)) (l1 ++ r :: l2) = l1 ++ l2.
Proof.
  unfold splice1. rewrite length_app. simpl length.
  destruct (Z.ltb_spec (Z.of_nat (length l1)) 0) as [?|_]; [lia |].
  rewrite Z.min_l by lia. rewrite Nat2Z.id. apply delete_middle.
Qed.

Lemma countById_app v l1 l2 :
  countById v (l1 ++ l2) = (countById v l1 + countById v l2)%nat.
Proof. unfold countById. by rewrite filter_app, length_app. Qed.

Lemma countById_none v l :
  Forall (fun r => hasId v r = false) l -> countById v l = 0%nat.
Proof.
  unfold countById. induction 1 as [|x l Hx _ IH]; [done |].
  rewrite filter_cons_False; [done | congruence].
Qed.

Lemma countById_some v l (r : Obj) :
  r ∈ l -> hasId v r = true -> (1 <= countById v l)%nat.
Proof.
  unfold countById. intros Hr Hv.
  assert (r ∈ filter (fun r => hasId v r = true) l) as Hin
    by (apply list_elem_of_filter; done).
  destruct (filter _ l); [by apply elem_of_nil in Hin | simpl; lia].
Qed.
End Scan.

(** ** [addItem] and [removeItem] *)

Section CacheMethods.
Implicit Types (item : Obj) (m : Manager) (v : JsVal).

(** [addItem] never throws: it appends the normalized record and
    persists, or leaves the manager as it is. *)
Lemma addItem_eq item m :
  addItem item m =
  Ok (if forallb (fun r => negb (hasId item.["id"] r)) (inventory m)
         && truthy item.["id"]
      then persist (withInventory (inventory m ++ [normalize item]) m)
      else m).
Proof.
  unfold addItem, findIndexById. simpl.
  rewrite findIndexFrom_none by lia.
  change (normalize item).["id"] with item.["id"].
  by destruct (_ && _).
Qed.

Lemma addItem_ignored item m :
  truthy item.["id"] = false \/
  (exists s, s ∈ inventory m /\ hasId item.["id"] s = true) ->
  addItem item m = Ok m.
Proof.
  intros H. rewrite addItem_eq. destruct H as [-> | (s & Hs & Hv)].
  - by rewrite andb_false_r.
  - destruct (forallb _ _) eqn:Hf; [| done].
    apply forallb_hasId in Hf. rewrite Forall_forall in Hf.
    rewrite (Hf s Hs) in Hv. done.
Qed.

Lemma addItem_fresh item m :
  truthy item.["id"] = true ->
  Forall (fun r => hasId item.["id"] r = false) (inventory m) ->
  addItem item m = Ok (persist (withInventory (inventory m ++ [normalize item]) m)).
Proof.
  intros Ht Hf. rewrite addItem_eq. apply forallb_hasId in Hf. by rewrite Hf, Ht.
Qed.

Lemma addItem_contains item m :
  truthy item.["id"] = true ->
  exists m', addItem item m = Ok m' /\
             exists r, r ∈ inventory m' /\ hasId item.["id"] r = true.
Proof.
  intros Ht.
  destruct (forallb (fun s => negb (hasId item.["id"] s)) (inventory m)) eqn:Hf.
  - eexists. rewrite addItem_eq, Hf, Ht. split; [done |].
    exists (normalize item). simpl. split.
    + apply elem_of_app. right. by left.
    + by apply hasId_normalize.
  - exists m. split; [| by apply forallb_hasId_false].
    by rewrite addItem_eq, Hf.
Qed.

Lemma saves_persist m inv : saves (persist (withInventory inv m)) = S (saves m).
Proof.
  unfold saves. simpl. rewrite filter_app. rewrite length_app. simpl. lia.
Qed.

Lemma removeItem_cases (item : Arg) m :
  match idOfArg item with
  | Throw e => removeItem item m = Throw e
  | Ok v =>
      (Forall (fun r => hasId v r = false) (inventory m) /\ removeItem item m = Ok m) \/
      (exists l1 r l2,
          inventory m = l1 ++ r :: l2 /\
          Forall (fun s => hasId v s = false) l1 /\ hasId v r = true /\
          removeItem item m = Ok (persist (withInventory (l1 ++ l2) m)))
  end.
Proof.
  unfold removeItem, findIndexById. destruct (idOfArg item) as [v|e]; simpl; [| done].
  destruct (findIndexFrom_cases v 0 (inventory m)) as
    [[Hn Hall] | (l1 & r & l2 & Hl & Hall & Hr & Hk)]; [lia | |].
  - left. by rewrite Hn.
  - right. exists l1, r, l2. rewrite Hk, Hl. repeat split; auto.
    destruct (Z.eqb_spec (0 + Z.of_nat (length l1)) (-1)) as [?|_]; [lia |].
    simpl. by rewrite Z.add_0_l, splice1_middle.
Qed.

Lemma removeItem_spec (item : Arg) v m :
  idOfArg item = Ok v ->
  (Forall (fun r => hasId v r = false) (inventory m) /\ removeItem item m = Ok m) \/
  (exists l1 r l2 m',
      inventory m = l1 ++ r :: l2 /\
      Forall (fun s => hasId v s = false) l1 /\ hasId v r = true /\
      removeItem item m = Ok m' /\
      inventory m' = l1 ++ l2 /\
      files (world m') !! inventoryFile m = Some (l1 ++ l2) /\
      calls (world m') = calls (world m) ++ [FsSave (inventoryFile m) (l1 ++ l2)] /\
      saves m' = S (saves m)).
Proof.
  intros Hv. pose proof (removeItem_cases item m) as Hc. rewrite Hv in Hc.
  destruct Hc as [Hc | (l1 & r & l2 & Hl & Hall & Hr & Hc)]; [by left |].
  right. exists l1, r, l2, (persist (withInventory (l1 ++ l2) m)).
  repeat split; auto.
  - simpl. apply lookup_insert_eq.
  - apply saves_persist.
Qed.
End CacheMethods.

(** ** The invariant *)

Section Invariant.
Implicit Types (l inv : list Obj) (m : Manager).

Lemma distinctIds_snoc l (x : Obj) :
  distinctIds l -> Forall (fun r => hasId x.["id"] r = false) l ->
  distinctIds (l ++ [x]).
Proof.
  induction l as [|y l IH]; simpl; intros Hd Hx.
  - split; constructor.
  - destruct Hd as [Hy Hd]. inversion_clear Hx as [|?? Hyx Hl].
    split; [| by apply IH].
    apply Forall_app. split; [done |].
    constructor; [| constructor]. by rewrite hasId_sym.
Qed.

Lemma distinctIds_remove l1 (r : Obj) l2 :
  distinctIds (l1 ++ r :: l2) -> distinctIds (l1 ++ l2).
Proof.
  induction l1 as [|y l1 IH]; simpl; [tauto |].
  intros [Hy Hd]. split; [| by apply IH].
  apply Forall_app in Hy as [H1 H2]. inversion_clear H2.
  apply Forall_app. by split.
Qed.

Lemma distinctIds_lookup l (i j : nat) (r s : Obj) :
  distinctIds l -> (i < j)%nat -> l !! i = Some r -> l !! j = Some s ->
  hasId r.["id"] s = false.
Proof.
  revert i j. induction l as [|y l IH]; intros i j Hd Hij Hi Hj; [done |].
  destruct Hd as [Hy Hd]. destruct i as [|i], j as [|j]; try lia; simpl in *.
  - injection Hi as ->. rewrite Forall_forall in Hy. apply Hy.
    by eapply list_elem_of_lookup_2.
  - apply (IH i j); [done | lia | done | done].
Qed.

Lemma cacheOk_lookup inv (i j : nat) (r s : Obj) :
  cacheOk inv -> i <> j -> inv !! i = Some r -> inv !! j = Some s ->
  looseEq r.["id"] s.["id"] = false /\
  strictEq r.["id"] s.["id"] = false /\
  r.["id"] <> s.["id"].
Proof.
  intros [Hd Ht] Hij Hi Hj.
  assert (looseEq r.["id"] s.["id"] = false) as Hne.
  { destruct (Nat.lt_total i j) as [Hlt | [-> | Hlt]]; [| done |].
    - rewrite looseEq_sym. by eapply (distinctIds_lookup inv i j).
    - by eapply (distinctIds_lookup inv j i). }
  split; [done |]. split.
  - destruct (strictEq r.["id"] s.["id"]) eqn:Hs; [| done].
    apply strictEq_looseEq in Hs. congruence.
  - intros Heq. rewrite Heq in Hne.
    rewrite looseEq_refl in Hne; [done |].
    rewrite Forall_forall in Ht. apply Ht. by eapply list_elem_of_lookup_2.
Qed.

Lemma addItem_cacheOk (item : Obj) m m' :
  cacheOk (inventory m) -> addItem item m = Ok m' -> cacheOk (inventory m').
Proof.
  intros [Hd Ht]. rewrite addItem_eq. intros [= <-].
  destruct (forallb _ _) eqn:Hf; simpl; [| done].
  destruct (truthy item.["id"]) eqn:Hi; simpl; [| done].
  apply forallb_hasId in Hf. split.
  - by apply distinctIds_snoc.
  - apply Forall_app. split; [done |]. by constructor.
Qed.

Lemma removeItem_cacheOk (item : Arg) m m' :
  cacheOk (inventory m) -> removeItem item m = Ok m' -> cacheOk (inventory m').
Proof.
  intros [Hd Ht] Hrm. pose proof (removeItem_cases item m) as Hc.
  destruct (idOfArg item) as [v|e]; [| congruence].
  destruct Hc as [[_ Hc] | (l1 & r & l2 & Hl & _ & _ & Hc)];
    rewrite Hc in Hrm; injection Hrm as <-; [done |].
  simpl. rewrite Hl in Hd, Ht. split.
  - by eapply distinctIds_remove.
  - apply Forall_app in Ht as [H1 H2]. inversion_clear H2.
    apply Forall_app. by split.
Qed.

Lemma cacheCall_cacheOk c m :
  cacheOk (inventory m) -> cacheOk (inventory (cacheCall c m)).
Proof.
  intros Hok. unfold cacheCall. destruct c as [item|item].
  - destruct (addItem item m) eqn:E; [by eapply addItem_cacheOk | done].
  - destruct (removeItem item m) eqn:E; [by eapply removeItem_cacheOk | done].
Qed.

Lemma cacheCalls_cacheOk cs m :
  cacheOk (inventory m) -> cacheOk (inventory (cacheCalls cs m)).
Proof.
  revert m. induction cs as [|c cs IH]; intros m Hok; [done |].
  simpl. apply IH. by apply cacheCall_cacheOk.
Qed.
End Invariant.

(** C1. Whatever sequence of [addItem] and [removeItem] calls is applied
    to a manager whose cache is empty, no two records of the resulting
    cache have equal ids (neither [==], nor [===], nor the same value),
    and every record has a truthy id. *)
Theorem cache_ids_unique_and_truthy (cs : list CacheCall) (key app ctx : JsVal)
    (w : World) :
  let inv := inventory (cacheCalls cs (emptyManager key app ctx w)) in
  (forall (i j : nat) (r s : Obj),
      i <> j -> inv !! i = Some r -> inv !! j = Some s ->
      looseEq r.["id"] s.["id"] = false /\
      strictEq r.["id"] s.["id"] = false /\
      r.["id"] <> s.["id"]) /\
  (forall r : Obj, r ∈ inv -> truthy r.["id"] = true).
Proof.
  intros inv.
  assert (cacheOk inv) as Hok.
  { apply cacheCalls_cacheOk. split; [exact I | constructor]. }
  split.
  - intros i j r s Hij Hi Hj. by eapply cacheOk_lookup.
  - intros r Hr. destruct Hok as [_ Ht]. rewrite Forall_forall in Ht. by apply Ht.
Qed.

(** C6, as the code has it.  For a record [r] with a truthy id, two
    calls of [addItem(r)] leave at least one record whose id matches
    that of [r], and exactly one when the cache held at most one such
    record before; the first call persists at most once, and the second
    neither inserts nor persists: it returns the manager unchanged.  An
    argument whose id is falsy, or matches the id of a record of the
    cache, is ignored without an error. *)
Theorem addItem_idempotent (r : Obj) (m : Manager) :
  truthy r.["id"] = true ->
  (exists m1,
      addItem r m = Ok m1 /\ addItem r m1 = Ok m1 /\
      (saves m1 <= S (saves m))%nat /\
      (1 <= countById r.["id"] (inventory m1))%nat /\
      ((countById r.["id"] (inventory m) <= 1)%nat ->
       countById r.["id"] (inventory m1) = 1%nat)) /\
  (forall (item : Obj) (m' : Manager),
      truthy item.["id"] = false \/
      (exists s, s ∈ inventory m' /\ hasId item.["id"] s = true) ->
      addItem item m' = Ok m').
Proof.
  intros Ht. split; [| apply addItem_ignored].
  destruct (forallb (fun s => negb (hasId r.["id"] s)) (inventory m)) eqn:Hf.
  - apply forallb_hasId in Hf.
    exists (persist (withInventory (inventory m ++ [normalize r]) m)).
    assert (countById r.["id"] (inventory m ++ [normalize r]) = 1%nat) as Hc.
    { rewrite countById_app, (countById_none _ _ Hf). unfold countById.
      rewrite filter_cons_True by (by apply hasId_normalize). done. }
    split; [by apply addItem_fresh |]. split.
    + apply addItem_ignored. right. exists (normalize r). simpl. split.
      * apply elem_of_app. right. by left.
      * by apply hasId_normalize.
    + split; [by rewrite saves_persist |]. simpl. rewrite Hc. auto.
  - apply forallb_hasId_false in Hf as (s & Hs & Hv). exists m.
    assert (addItem r m = Ok m) as Hno by (apply addItem_ignored; eauto).
    split; [done |]. split; [done |]. split; [lia |]. split.
    + by eapply countById_some.
    + intros Hle. pose proof (countById_some _ _ _ Hs Hv). lia.
Qed.

Lemma addItem_idempotent_witness :
  truthy item5.["id"] = true /\
  exists m1,
    addItem item5 sampleManager = Ok m1 /\ addItem item5 m1 = Ok m1 /\
    countById item5.["id"] (inventory m1) = 1%nat.
Proof.
  split; [reflexivity |].
  destruct (addItem_idempotent item5 sampleManager eq_refl)
    as [(m1 & H1 & H2 & _ & _ & H3) _].
  exists m1. split; [exact H1 |]. split; [exact H2 |].
  apply H3. change (inventory sampleManager) with (@nil Obj).
  unfold countById. simpl. lia.
Defined.

(** C6 as stated fails on a cache that [addItem] itself builds: after
    the ids ["5"] and ["05"] (distinct strings) are cached, the id [5]
    matches both, so two calls of [addItem] with it leave two matching
    records, none of which has the id [5] itself. *)
Lemma addItem_twice_not_exactly_one :
  let m := cacheCalls [CallAddItem {[ "id" := JStr "5" ]};
                       CallAddItem {[ "id" := JStr "05" ]}] sampleManager in
  let r : Obj := {[ "id" := JNum 5 ]} in
  truthy r.["id"] = true /\
  exists m1 m2,
    addItem r m = Ok m1 /\ addItem r m1 = Ok m2 /\
    (fun o : Obj => o.["id"]) <$> inventory m2 = [JStr "5"; JStr "05"] /\
    countById r.["id"] (inventory m2) = 2%nat /\
    countByExactId r.["id"] (inventory m2) = 0%nat.
Proof.
  intros m r. split; [reflexivity |].
  exists m, m. repeat split; reflexivity.
Qed.

(** C8. [removeItem], given an id or a record ([v] being the id it
    designates): when no record's id matches, the manager is unchanged
    (nothing is removed or persisted, nothing is thrown); otherwise the
    first matching record alone is removed, the records before and after
    it keep their values and order, and the cache is persisted once. *)
Theorem removeItem_removes_first_match (item : Arg) (v : JsVal) (m : Manager) :
  idOfArg item = Ok v ->
  (Forall (fun r => hasId v r = false) (inventory m) /\ removeItem item m = Ok m) \/
  (exists l1 r l2 m',
      inventory m = l1 ++ r :: l2 /\
      Forall (fun s => hasId v s = false) l1 /\ hasId v r = true /\
      removeItem item m = Ok m' /\
      inventory m' = l1 ++ l2 /\
      files (world m') !! inventoryFile m = Some (l1 ++ l2) /\
      calls (world m') = calls (world m) ++ [FsSave (inventoryFile m) (l1 ++ l2)] /\
      saves m' = S (saves m)).
Proof. apply removeItem_spec. Qed.

Lemma removeItem_removes_first_match_witness :
  idOfArg (ArgVal (JStr "5")) = Ok (JStr "5") /\
  inventory (cacheCalls [CallAddItem item5; CallAddItem item7] sampleManager)
  = [item5; item7] /\
  exists m',
    removeItem (ArgVal (JStr "5"))
      (cacheCalls [CallAddItem item5; CallAddItem item7] sampleManager)
    = Ok m' /\
    inventory m' = [item7].
Proof.
  split; [reflexivity |]. split; [reflexivity |].
  destruct (removeItem_removes_first_match (ArgVal (JStr "5")) (JStr "5")
              (cacheCalls [CallAddItem item5; CallAddItem item7] sampleManager) eq_refl)
    as [[Hnone _] | (l1 & r & l2 & m' & Hl & Hl1 & Hr & Hrm & Hinv & _)].
  - exfalso.
    change (inventory (cacheCalls [CallAddItem item5; CallAddItem item7] sampleManager))
      with [item5; item7] in Hnone.
    inversion Hnone as [|?? Hx _]. discriminate Hx.
  - exists m'. split; [exact Hrm |]. rewrite Hinv.
    change (inventory (cacheCalls [CallAddItem item5; CallAddItem item7] sampleManager))
      with [item5; item7] in Hl.
    destruct l1 as [|x l1].
    + injection Hl as <- <-. reflexivity.
    + exfalso. injection Hl as <- Hl.
      inversion Hl1 as [|?? Hx _]. discriminate Hx.
Defined.

(** ** Withdraw *)

Lemma withdrawRequest_removeItem (item : Obj) (m m1 : Manager) :
  removeItem (ArgObj item) m = Ok m1 ->
  withdrawRequest item m
  = Ok (requested (ApiWithdrawInventoryItems [item.["id"]]) m1).
Proof. unfold withdrawRequest. by intros ->. Qed.



(** C10. For an item with a truthy id that no record of the cache
    matches: the removal of [withdraw] changes nothing (and persists
    nothing), and when the request fails the compensation appends the
    normalized record of the item, which the cache never held. *)
Theorem failed_withdraw_inserts_absent_item (item : Obj) (api : Remote)
    (m : Manager) (err : JsError) (offers : list Offer) :
  truthy item.["id"] = true ->
  Forall (fun r => hasId item.["id"] r = false) (inventory m) ->
  opskins_withdrawInventoryItems api [item.["id"]] = (Some err, offers) ->
  exists m1 m2,
    withdrawRequest item m = Ok m1 /\
    inventory m1 = inventory m /\
    calls (world m1) = calls (world m) ++ [ApiWithdrawInventoryItems [item.["id"]]] /\
    withdraw item api m = (Rejected err, m2) /\
    inventory m2 = inventory m ++ [normalize item].
Proof.
  intros Ht Hnone Hreply.
  assert (removeItem (ArgObj item) m = Ok m) as Hrm.
  { destruct (removeItem_spec (ArgObj item) item.["id"] m eq_refl)
      as [[_ H] | (l1 & r & l2 & m' & Hl & _ & Hr & _)]; [done |].
    rewrite Forall_forall in Hnone. rewrite Hnone in Hr; [done |].
    rewrite Hl. apply elem_of_app. right. by left. }
  set (m1 := requested (ApiWithdrawInventoryItems [item.["id"]]) m).
  exists m1, (persist (withInventory (inventory m1 ++ [normalize item]) m1)).
  assert (withdrawRequest item m = Ok m1) as Hreq
    by (by apply withdrawRequest_removeItem).
  repeat split; auto.
  unfold withdraw. rewrite Hreq, Hreply. simpl.
  by rewrite (addItem_fresh item m1 Ht Hnone).
Qed.

Lemma failed_withdraw_inserts_absent_item_witness :
  truthy item7.["id"] = true /\
  inventory stockedManager = [item5] /\
  exists m2,
    withdraw item7 refusingRemote stockedManager
    = (Rejected (Error "Bad Request"), m2) /\
    inventory m2 = [item5; item7].
Proof.
  split; [reflexivity |]. split; [reflexivity |].
  destruct (failed_withdraw_inserts_absent_item item7 refusingRemote stockedManager
              (Error "Bad Request") [] eq_refl)
    as (m1 & m2 & _ & _ & _ & Hw & Hinv).
  - change (inventory stockedManager) with [item5].
    constructor; [reflexivity | constructor].
  - reflexivity.
  - exists m2. split; [exact Hw | exact Hinv].
Defined.

(** ** Buy *)

Section Selection.
Implicit Types (name : JsVal) (l sales : list Obj).

Lemma firstNamed_app name l1 l2 :
  firstNamed name (l1 ++ l2) =
  match firstNamed name l1 with
  | Some x => Some x
  | None => firstNamed name l2
  end.
Proof.
  induction l1 as [|x l1 IH]; simpl; [done |].
  by destruct (strictEq x.["name"] name).
Qed.

Lemma firstNamed_found name l1 (x : Obj) l2 :
  Forall (fun s => strictEq s.["name"] name = false) l1 ->
  strictEq x.["name"] name = true ->
  firstNamed name (l1 ++ x :: l2) = Some x.
Proof.
  intros Hall Hx. induction Hall as [|y l1 Hy _ IH]; simpl.
  - by rewrite Hx.
  - by rewrite Hy.
Qed.

Lemma firstNamed_none name l :
  Forall (fun s => strictEq s.["name"] name = false) l -> firstNamed name l = None.
Proof. induction 1 as [|y l Hy _ IH]; simpl; [done | by rewrite Hy]. Qed.

(** For a requested name other than the empty string, the methods the
    loop visits after the listings are never selected. *)
Lemma selectItemToBuy_named name sales :
  strictEq (JStr "") name = false ->
  selectItemToBuy name sales = firstNamed name sales.
Proof.
  intros Hne. unfold selectItemToBuy, forIn. rewrite firstNamed_app.
  destruct (firstNamed name sales); [done |].
  simpl. change prototypeMethod.["name"] with (JStr ""). by rewrite Hne.
Qed.

(** For the empty name the selection always finds something. *)
Lemma selectItemToBuy_empty_name sales :
  exists x, selectItemToBuy (JStr "") sales = Some x.
Proof.
  unfold selectItemToBuy, forIn. rewrite firstNamed_app.
  destruct (firstNamed (JStr "") sales); eauto.
Qed.
End Selection.

Lemma buy_unchanged_unless_resolved (args : Obj) api m out m' :
  buy args api m = (out, m') ->
  (forall r, out <> Resolved r) ->
  inventory m' = inventory m /\ files (world m') = files (world m).
Proof.
  unfold buy.
  destruct (findByName _ _) as [r|]; [intros [= <- <-] H; by destruct (H r) |].
  unfold searchCallback.
  destruct (opskins_search api _) as [err sales].
  destruct err as [err|]; [by intros [= <- <-] |].
  destruct (selectItemToBuy _ _) as [it|]; [| by intros [= <- <-]].
  unfold buyItemsCallback.
  destruct (opskins_buyItems api _ _) as [[err|] [|first rest]];
    try (by intros [= <- <-]).
  destruct (addItem _ _) as [m2|e] eqn:Hadd.
  - intros [= <- <-] H. exfalso. by eapply H.
  - by intros [= <- <-].
Qed.

(** C3. When [findByName(name)] finds a record in the cache,
    [buy({name})] resolves to that record and leaves the manager as it
    was: no request is issued, and the cache is not touched. *)
Theorem buy_returns_cached_item (args : Obj) (api : Remote) (m : Manager) (r : Obj) :
  findByName args.["name"] (inventory m) = Some r ->
  buy args api m = (Resolved r, m).
Proof. intros H. unfold buy. by rewrite H. Qed.

Lemma buy_returns_cached_item_witness :
  findByName (JStr "AK-47 | Redline") (inventory stockedManager) = Some item5 /\
  buy {[ "name" := JStr "AK-47 | Redline" ]} refusingRemote stockedManager
  = (Resolved item5, stockedManager).
Proof.
  split; [reflexivity |].
  apply (buy_returns_cached_item {[ "name" := JStr "AK-47 | Redline" ]}
           refusingRemote stockedManager item5).
  reflexivity.
Defined.

(** C4, as the code has it.  For a requested name other than the empty
    string, the search callback selects the first listing, in returned
    order, whose name is [===] to it, and issues the purchase of that
    listing; when no listing has the name it rejects with the
    item-not-found error.  Of the listings A, B, A the first is selected
    for the name A.  For the empty name the loop goes on to the methods
    installed on the array prototype, whose name is the empty string, so
    it always selects something: with no listing returned and no search
    error, [buy] does not reject with the item-not-found error but
    issues a purchase of [[undefined]] for the amount [NaN]. *)
Theorem buy_selects_first_exact_match_unless_name_empty :
  (forall (name : JsVal) (api : Remote) (m : Manager) (sales : list Obj),
      strictEq (JStr "") name = false ->
      (Forall (fun s => strictEq s.["name"] name = false) sales ->
       searchCallback name (None, Some sales) api m
       = (Rejected (Error "Item wasn't found"), m)) /\
      (forall l1 x l2,
          sales = l1 ++ x :: l2 ->
          Forall (fun s => strictEq s.["name"] name = false) l1 ->
          strictEq x.["name"] name = true ->
          selectItemToBuy name sales = Some x /\
          searchCallback name (None, Some sales) api m
          = buyItemsCallback
              (opskins_buyItems api [x.["id"]] (ToNumber x.["amount"]))
              (requested (ApiBuyItems [x.["id"]] (ToNumber x.["amount"])) m))) /\
  selectItemToBuy (JStr "A") [saleA1; saleB2; saleA3] = Some saleA1 /\
  (forall sales, exists x, selectItemToBuy (JStr "") sales = Some x) /\
  selectItemToBuy (JStr "") [] = Some prototypeMethod /\
  (exists m',
      buy {[ "name" := JStr "" ]} refusingRemote sampleManager
      = (Rejected (Error "Bad Request"), m') /\
      inventory m' = [] /\
      calls (world m')
      = [ApiSearch {[ "search_item" := JStr (quote +:+ quote); "app" := JStr "730_2" ]};
         ApiBuyItems [JUndefined] JNaN]).
Proof.
  split; [| split; [reflexivity | split; [apply selectItemToBuy_empty_name |
                                          split; [reflexivity |]]]].
  - intros name api m sales Hne. split.
    + intros Hall. unfold searchCallback. simpl.
      by rewrite (selectItemToBuy_named _ _ Hne), (firstNamed_none _ _ Hall).
    + intros l1 x l2 -> Hall Hx.
      assert (selectItemToBuy name (l1 ++ x :: l2) = Some x) as Hsel
        by (by rewrite (selectItemToBuy_named _ _ Hne),
                       (firstNamed_found _ _ _ _ Hall Hx)).
      split; [done |]. unfold searchCallback. simpl. by rewrite Hsel.
  - eexists. split; [reflexivity |]. split; reflexivity.
Qed.

(** C5, as the code has it.  Whenever [buy] ends otherwise than by
    resolving, the cache and the persisted files are as they were before
    the call.  An error of the search makes [buy] reject with it, and so
    does an error of the purchase.  When the search returns no listing
    with the requested name, [buy] rejects with the item-not-found error
    if that name is not the empty string.  For the empty name it does
    not: with listings A, B, A and the name [''], the loop selects a
    method of the array prototype, the purchase of [[undefined]] is
    issued, and against a platform that confirms it [buy] resolves and
    the cache has changed. *)
Theorem buy_failure_leaves_cache_unchanged_unless_name_empty :
  (forall (args : Obj) (api : Remote) (m : Manager),
      let name := args.["name"] in
      let query := searchQuery name args.["max"] m in
      (forall out m',
          buy args api m = (out, m') -> (forall r, out <> Resolved r) ->
          inventory m' = inventory m /\ files (world m') = files (world m)) /\
      (findByName name (inventory m) = None ->
       (forall err sales,
           opskins_search api query = (Some err, sales) ->
           exists m', buy args api m = (Rejected err, m') /\
                      inventory m' = inventory m) /\
       (forall sales,
           opskins_search api query = (None, sales) ->
           strictEq (JStr "") name = false ->
           Forall (fun s => strictEq s.["name"] name = false) (default [] sales) ->
           exists m', buy args api m = (Rejected (Error "Item wasn't found"), m') /\
                      inventory m' = inventory m) /\
       (forall sales itemToBuy err bought,
           opskins_search api query = (None, sales) ->
           selectItemToBuy name (default [] sales) = Some itemToBuy ->
           opskins_buyItems api [itemToBuy.["id"]] (ToNumber itemToBuy.["amount"])
           = (Some err, bought) ->
           exists m', buy args api m = (Rejected err, m') /\
                      inventory m' = inventory m))) /\
  (inventory sampleManager = [] /\
   opskins_search sellingRemote
     (searchQuery (JStr "") JUndefined sampleManager)
   = (None, Some [saleA1; saleB2; saleA3]) /\
   Forall (fun s => strictEq s.["name"] (JStr "") = false) [saleA1; saleB2; saleA3] /\
   exists r m',
     buy {[ "name" := JStr "" ]} sellingRemote sampleManager = (Resolved r, m') /\
     inventory m' = [r] /\
     remoteCalls (calls (world m'))
     = [ApiSearch (searchQuery (JStr "") JUndefined sampleManager);
        ApiBuyItems [JUndefined] JNaN]).
Proof.
  split.
  - intros args api m name query. split.
    + intros out m'. apply buy_unchanged_unless_resolved.
    + intros Hfind. unfold buy. fold name. rewrite Hfind. fold query.
      unfold searchCallback. repeat split.
      * intros err sales ->. eexists. split; reflexivity.
      * intros sales -> Hne Hall.
        rewrite (selectItemToBuy_named _ _ Hne), (firstNamed_none _ _ Hall).
        eexists. split; reflexivity.
      * intros sales itemToBuy err bought -> -> Hbuy. simpl. rewrite Hbuy.
        eexists. split; reflexivity.
  - split; [reflexivity |]. split; [reflexivity |]. split.
    + repeat (constructor; [reflexivity |]). constructor.
    + eexists _, _. split; [reflexivity |]. split; reflexivity.
Qed.

(** ** Start-up *)

Section Startup.
Implicit Types (item : Obj) (m : Manager).

Lemma addItem_keepFirst item m :
  exists m',
    addItem item m = Ok m' /\
    inventory m' = foldl keepFirst (inventory m) (withId [normalize item]) /\
    exists evs, calls (world m') = calls (world m) ++ evs /\ remoteCalls evs = [].
Proof.
  eexists. split; [apply addItem_eq |]. unfold withId.
  destruct (truthy item.["id"]) eqn:Ht.
  - rewrite filter_cons_True by done. simpl. unfold keepFirst.
    change (normalize item).["id"] with item.["id"]. rewrite existsb_hasId.
    destruct (forallb _ _); simpl.
    + split; [done |]. by eexists [_].
    + split; [done |]. exists []. by rewrite app_nil_r.
  - rewrite filter_cons_False
      by (change (normalize item).["id"] with item.["id"]; congruence).
    rewrite andb_false_r. split; [done |]. exists []. by rewrite app_nil_r.
Qed.

Lemma addItems_keepFirst visited m :
  inventory (addItems visited m)
  = foldl keepFirst (inventory m) (withId (normalize <$> visited)) /\
  exists evs,
    calls (world (addItems visited m)) = calls (world m) ++ evs /\
    remoteCalls evs = [].
Proof.
  revert m. induction visited as [|item rest IH]; intros m; simpl.
  - split; [done |]. exists []. by rewrite app_nil_r.
  - destruct (addItem_keepFirst item m) as (m' & -> & Hinv & evs & Hcalls & Hevs).
    destruct (IH m') as (IHinv & evs' & IHcalls & IHevs).
    split.
    + rewrite IHinv, Hinv. unfold withId. rewrite <- foldl_app.
      by rewrite <- filter_app.
    + exists (evs ++ evs'). rewrite IHcalls, Hcalls, <- app_assoc. split; [done |].
      unfold remoteCalls in *. by rewrite filter_app, Hevs, IHevs.
Qed.

(** The methods the loop visits after the fetched items have no id. *)
Lemma withId_forIn (fetched : list Obj) :
  withId (normalize <$> forIn fetched) = withId (normalize <$> fetched).
Proof.
  unfold forIn, withId. rewrite fmap_app, filter_app.
  etransitivity; [| apply app_nil_r]. f_equal.
Qed.

Lemma setInventory_absent api m :
  files (world m) !! inventoryFile m = None ->
  exists evs,
    calls (world (setInventory api m))
    = calls (world m) ++ FsRead (inventoryFile m) :: ApiGetInventory :: evs /\
    remoteCalls evs = [] /\
    (forall fetched,
        opskins_getInventory api = (None, Some fetched) ->
        inventory (setInventory api m) = dedupById (withId (normalize <$> fetched))) /\
    (forall err data,
        opskins_getInventory api = (Some err, data) ->
        inventory (setInventory api m) = []).
Proof.
  intros Hfile. unfold setInventory, FileStorage_read.
  change (inventoryFile (withInventory [] m)) with (inventoryFile m).
  change (world (withInventory [] m)) with (world m).
  rewrite Hfile. unfold getInventory.
  destruct (opskins_getInventory api) as [[err|] [fetched|]].
  - exists []. split; [simpl; by rewrite <- app_assoc |].
    split; [done |]. split; [by intros ? [=] | intros ?? _; reflexivity].
  - exists []. split; [simpl; by rewrite <- app_assoc |].
    split; [done |]. split; [by intros ? [=] | intros ?? _; reflexivity].
  - match goal with |- context [addItems ?v ?m] =>
      destruct (addItems_keepFirst v m) as (Hinv & evs & Hcalls & Hevs) end.
    exists evs. split; [rewrite Hcalls; simpl; by rewrite <- !app_assoc |].
    split; [done |]. split; [| by intros ?? [=]].
    intros ? [= <-]. rewrite Hinv. by rewrite withId_forIn.
  - exists []. split; [simpl; by rewrite <- app_assoc |].
    split; [done |]. split; [by intros ? [=] | by intros ?? [=]].
Qed.
End Startup.

(** C7, as the code has it.  With a truthy key and no persisted file for
    the derived name, the constructor returns a manager, having read the
    store and issued exactly one inventory request (whatever else it
    does is persisting).  When the request succeeds the cache is the
    fetched items with a truthy id, normalized and deduplicated by id
    (first occurrences, in returned order); when it fails the cache is
    empty. *)
Theorem startup_without_file_fetches_once (options : Obj) (api : Remote) (w : World) :
  let m0 := emptyManager options.["apiKey"]
              (orDefault options.["appID"] (JNum 730))
              (orDefault options.["contextID"] (JNum 2)) w in
  truthy options.["apiKey"] = true ->
  files w !! inventoryFile m0 = None ->
  exists m evs,
    OpskinsManager options api w = (Ok m, world m) /\
    calls (world m)
    = calls w ++ FsRead (inventoryFile m0) :: ApiGetInventory :: evs /\
    remoteCalls evs = [] /\
    (forall fetched,
        opskins_getInventory api = (None, Some fetched) ->
        inventory m = dedupById (withId (normalize <$> fetched))) /\
    (forall err data,
        opskins_getInventory api = (Some err, data) -> inventory m = []).
Proof.
  intros m0 Hkey Hfile. unfold OpskinsManager. rewrite Hkey. simpl negb. cbv iota.
  destruct (setInventory_absent api m0 Hfile) as (evs & H).
  exists (setInventory api m0), evs. split; [reflexivity | exact H].
Qed.

Lemma startup_without_file_fetches_once_witness :
  truthy keyOnly.["apiKey"] = true /\
  files world0 !! "inventory_key_730_2.json" = None /\
  exists m,
    OpskinsManager keyOnly (remoteOwning [item5; item5; item7]) world0
    = (Ok m, world m) /\
    remoteCalls (calls (world m)) = [ApiGetInventory] /\
    inventory m = [item5; item7].
Proof.
  split; [reflexivity |]. split; [reflexivity |].
  destruct (startup_without_file_fetches_once keyOnly
              (remoteOwning [item5; item5; item7]) world0 eq_refl eq_refl)
    as (m & evs & Hm & Hcalls & Hevs & Hok & _).
  exists m. split; [exact Hm |]. split.
  - rewrite Hcalls. unfold remoteCalls in *. simpl.
    rewrite filter_cons_False by done. rewrite filter_cons_True by done.
    by rewrite Hevs.
  - rewrite (Hok _ eq_refl). reflexivity.
Defined.

(** C7 as stated fails when a fetched item has no (truthy) id: it is
    passed to [addItem] and ignored, so the cache is not the fetched
    items deduplicated by id. *)
Lemma startup_skips_records_without_id :
  files world0 !! "inventory_key_730_2.json" = None /\
  dedupById [anonymousItem; item5] = [anonymousItem; item5] /\
  length (dedupById (normalize <$> [anonymousItem; item5])) = 2%nat /\
  exists m,
    OpskinsManager keyOnly (remoteOwning [anonymousItem; item5]) world0
    = (Ok m, world m) /\
    inventory m = [item5].
Proof.
  split; [reflexivity |]. split; [reflexivity |]. split; [reflexivity |].
  eexists. split; reflexivity.
Qed.

(** C9. With a falsy [apiKey] (missing, empty, ...) the constructor
    throws at once: it returns no manager and leaves the world as it
    was, with no file read and no request issued. *)
Theorem constructor_requires_apiKey (options : Obj) (api : Remote) (w : World) :
  truthy options.["apiKey"] = false ->
  OpskinsManager options api w = (Throw (Error "apiKey is required"), w).
Proof. intros H. unfold OpskinsManager. by rewrite H. Qed.

Lemma constructor_requires_apiKey_witness :
  truthy (∅ : Obj).["apiKey"] = false /\
  truthy ({[ "apiKey" := JStr "" ]} : Obj).["apiKey"] = false /\
  OpskinsManager ∅ refusingRemote world0
  = (Throw (Error "apiKey is required"), world0) /\
  OpskinsManager {[ "apiKey" := JStr "" ]} refusingRemote world0
  = (Throw (Error "apiKey is required"), world0).
Proof.
  split; [reflexivity |]. split; [reflexivity |]. split.
  - apply (constructor_requires_apiKey ∅ refusingRemote world0). reflexivity.
  - apply (constructor_requires_apiKey {[ "apiKey" := JStr "" ]} refusingRemote world0).
    reflexivity.
Defined.

(** * Further properties *)

(** ** Lookups *)

Lemma findByName_cases name (l : list Obj) :
  (findByName name l = None /\
   Forall (fun r => looseEq r.["name"] name = false) l) \/
  (exists l1 r l2,
      l = l1 ++ r :: l2 /\
      Forall (fun s => looseEq s.["name"] name = false) l1 /\
      looseEq r.["name"] name = true /\ findByName name l = Some r).
Proof.
  induction l as [|y l IH]; simpl.
  - left. split; [done | constructor].
  - destruct (looseEq y.["name"] name) eqn:Hy.
    + right. exists [], y, l. repeat split; auto.
    + destruct IH as [[Hn Hall] | (l1 & x & l2 & -> & Hall & Hx & Hf)].
      * left. split; [done | by constructor].
      * right. exists (y :: l1), x, l2. repeat split; auto.
Qed.

Lemma findByName_app name (l1 l2 : list Obj) :
  findByName name (l1 ++ l2) =
  match findByName name l1 with
  | Some r => Some r
  | None => findByName name l2
  end.
Proof.
  induction l1 as [|x l1 IH]; simpl; [done |].
  by destruct (looseEq x.["name"] name).
Qed.

(** X1. [findByName] returns [null] exactly when no record of the cache
    has a name [==] to the one sought; otherwise it returns the first
    such record, in cache order. *)
Theorem findByName_first_match (name : JsVal) (inv : list Obj) :
  (findByName name inv = None /\
   forall r, r ∈ inv -> looseEq r.["name"] name = false) \/
  (exists l1 r l2,
      findByName name inv = Some r /\
      inv = l1 ++ r :: l2 /\
      looseEq r.["name"] name = true /\
      forall s, s ∈ l1 -> looseEq s.["name"] name = false).
Proof.
  destruct (findByName_cases name inv) as [[Hn Hall] | (l1 & r & l2 & Hl & Hall & Hr & Hf)].
  - left. split; [done |]. by apply Forall_forall.
  - right. exists l1, r, l2. repeat split; auto. by apply Forall_forall.
Qed.

Lemma findIndexFrom_lookup v (i : Z) (l : list Obj) :
  0 <= i ->
  (findIndexFrom v i l = -1 /\ Forall (fun r => hasId v r = false) l) \/
  (exists r,
      i <= findIndexFrom v i l < i + Z.of_nat (length l) /\
      l !! Z.to_nat (findIndexFrom v i l - i) = Some r /\
      hasId v r = true /\
      forall (j : nat) s, (j < Z.to_nat (findIndexFrom v i l - i))%nat ->
                          l !! j = Some s -> hasId v s = false).
Proof.
  intros Hi.
  destruct (findIndexFrom_cases v i l Hi) as [H | (l1 & r & l2 & -> & Hall & Hr & Hk)];
    [by left |].
  right. exists r. rewrite Hk.
  replace (i + Z.of_nat (length l1) - i) with (Z.of_nat (length l1)) by lia.
  rewrite Nat2Z.id, length_app. simpl. split; [lia |]. split.
  - by rewrite list_lookup_middle.
  - split; [done |]. intros j s Hj Hs. rewrite lookup_app_l in Hs by done.
    rewrite Forall_forall in Hall. apply Hall. by eapply list_elem_of_lookup_2.
Qed.

(** X2. [findIndexById] throws only for [null].  For any other argument
    it returns [-1] when no record's id matches the id the argument
    designates, and otherwise an index within the cache: that of the
    first matching record. *)
Theorem findIndexById_first_match (item : Arg) (inv : list Obj) :
  match idOfArg item with
  | Throw e =>
      item = ArgVal JNull /\ findIndexById item inv = Throw e
  | Ok v =>
      exists i,
        findIndexById item inv = Ok i /\
        ((i = -1 /\ forall r, r ∈ inv -> hasId v r = false) \/
         (0 <= i < Z.of_nat (length inv) /\
          exists r, inv !! Z.to_nat i = Some r /\ hasId v r = true /\
                    forall (j : nat) s, (j < Z.to_nat i)%nat -> inv !! j = Some s ->
                                        hasId v s = false))
  end.
Proof.
  unfold findIndexById.
  destruct item as [o|v0]; [| destruct v0]; simpl; try (split; reflexivity).
  all: match goal with |- context [findIndexFrom ?v 0 ?l] =>
         destruct (findIndexFrom_lookup v 0 l) as [[Hn Hall] | (r & Hb & Hr & Hv & Hbefore)];
           [lia | |];
           eexists; (split; [reflexivity |])
       end.
  all: try (left; split; [done | by apply Forall_forall]).
  all: right; rewrite Z.sub_0_r in *; split; [lia | eauto].
Qed.

(** ** How the cache methods compose *)

Lemma first_match_unique v (l1 l2 l1' l2' : list Obj) (r r' : Obj) :
  l1 ++ r :: l2 = l1' ++ r' :: l2' ->
  Forall (fun s => hasId v s = false) l1 -> hasId v r = true ->
  Forall (fun s => hasId v s = false) l1' -> hasId v r' = true ->
  l1 = l1' /\ r = r' /\ l2 = l2'.
Proof.
  revert l1'. induction l1 as [|x l1 IH]; intros l1' Heq H1 Hr H1' Hr'.
  - destruct l1' as [|x' l1']; simpl in Heq.
    + by injection Heq as -> ->.
    + injection Heq as -> _. inversion_clear H1'. congruence.
  - destruct l1' as [|x' l1']; simpl in Heq.
    + injection Heq as -> _. inversion_clear H1. congruence.
    + injection Heq as -> Heq. inversion_clear H1. inversion_clear H1'.
      destruct (IH l1' Heq) as (-> & -> & ->); auto.
Qed.

Lemma countById_cons_match v (r : Obj) (l : list Obj) :
  hasId v r = true -> countById v (r :: l) = S (countById v l).
Proof. intros Hr. unfold countById. by rewrite filter_cons_True. Qed.

Lemma findIndexFrom_count v (l : list Obj) :
  findIndexFrom v 0 l = -1 <-> countById v l = 0%nat.
Proof.
  destruct (findIndexFrom_cases v 0 l) as [[Hn Hall] | (l1 & r & l2 & -> & Hall & Hr & Hk)];
    [lia | |].
  - split; [intros _; by apply countById_none | done].
  - rewrite Hk. split; [lia |].
    rewrite countById_app, (countById_cons_match _ _ _ Hr). lia.
Qed.

(** X3. After [addItem(item)] with a truthy id, [findIndexById(item)]
    finds a record: it returns an index within the cache, of a record
    whose id matches that of the item (the one just added, or the one
    that made [addItem] skip it). *)
Theorem addItem_then_findIndexById (item : Obj) (m : Manager) :
  truthy item.["id"] = true ->
  exists m' i r,
    addItem item m = Ok m' /\
    findIndexById (ArgObj item) (inventory m') = Ok i /\
    0 <= i < Z.of_nat (length (inventory m')) /\
    inventory m' !! Z.to_nat i = Some r /\
    hasId item.["id"] r = true.
Proof.
  intros Ht. destruct (addItem_contains item m Ht) as (m' & Hadd & s & Hs & Hv).
  exists m'. unfold findIndexById. simpl.
  destruct (findIndexFrom_lookup item.["id"] 0 (inventory m'))
    as [[_ Hall] | (r & Hb & Hr & Hr' & _)]; [lia | |].
  - rewrite Forall_forall in Hall. rewrite (Hall s Hs) in Hv. done.
  - rewrite Z.sub_0_r in Hr. eexists _, r. split; [done |]. split; [done |].
    split; [lia | done].
Qed.

Lemma addItem_then_findIndexById_witness :
  truthy item7.["id"] = true /\
  exists m',
    addItem item7 stockedManager = Ok m' /\
    findIndexById (ArgObj item7) (inventory m') = Ok 1.
Proof.
  split; [reflexivity |].
  destruct (addItem_then_findIndexById item7 stockedManager eq_refl)
    as (m' & i & r & Hadd & _).
  exists m'. split; [exact Hadd |].
  change (addItem item7 stockedManager) with
    (Ok (persist (withInventory [item5; item7] stockedManager))) in Hadd.
  injection Hadd as <-. reflexivity.
Defined.

(** X4. [removeItem] lowers the number of records matching the id by
    one (leaving zero at zero); so a following [findIndexById] with the
    same argument gives [-1] exactly when at most one record matched
    before. *)
Theorem removeItem_then_findIndexById (item : Arg) (v : JsVal) (m : Manager) :
  idOfArg item = Ok v ->
  exists m',
    removeItem item m = Ok m' /\
    countById v (inventory m') = Nat.pred (countById v (inventory m)) /\
    (findIndexById item (inventory m') = Ok (-1) <->
     (countById v (inventory m) <= 1)%nat).
Proof.
  intros Hv. pose proof (removeItem_cases item m) as Hc. rewrite Hv in Hc.
  assert (forall l, findIndexById item l = Ok (-1) <-> countById v l = 0%nat) as Hfind.
  { intros l. unfold findIndexById. rewrite Hv. simpl.
    rewrite <- findIndexFrom_count. split; [by intros [= ->] | by intros ->]. }
  destruct Hc as [[Hall Hc] | (l1 & r & l2 & Hl & Hall & Hr & Hc)].
  - exists m. pose proof (countById_none _ _ Hall) as H0.
    rewrite Hfind, H0. split; [done |]. split; [done |]. split; [lia | done].
  - eexists. split; [exact Hc |]. simpl. rewrite Hfind, Hl, !countById_app.
    rewrite (countById_none _ _ Hall), (countById_cons_match _ _ _ Hr). simpl.
    split; [done | lia].
Qed.

Lemma removeItem_then_findIndexById_witness :
  idOfArg (ArgVal (JNum 5)) = Ok (JNum 5) /\
  exists m',
    removeItem (ArgVal (JNum 5)) stockedManager = Ok m' /\
    findIndexById (ArgVal (JNum 5)) (inventory m') = Ok (-1).
Proof.
  split; [reflexivity |].
  destruct (removeItem_then_findIndexById (ArgVal (JNum 5)) (JNum 5) stockedManager
              eq_refl) as (m' & Hrm & _ & Hfind).
  exists m'. split; [exact Hrm |]. apply Hfind.
  change (inventory stockedManager) with [item5].
  rewrite countById_cons_match by reflexivity. unfold countById. simpl. lia.
Defined.

(** X5. [removeItem(item)] undoes [addItem(item)]: for an item with a
    truthy id that no record matches, adding and then removing it gives
    back the cache as it was, persisted as such, after two writes. *)
Theorem addItem_then_removeItem (item : Obj) (m : Manager) :
  truthy item.["id"] = true ->
  Forall (fun r => hasId item.["id"] r = false) (inventory m) ->
  exists m1 m2,
    addItem item m = Ok m1 /\
    removeItem (ArgObj item) m1 = Ok m2 /\
    inventory m1 = inventory m ++ [normalize item] /\
    inventory m2 = inventory m /\
    files (world m2) !! inventoryFile m = Some (inventory m) /\
    saves m2 = S (S (saves m)).
Proof.
  intros Ht Hfresh. eexists. 
  pose proof (addItem_fresh item m Ht Hfresh) as Hadd.
  set (m1 := persist (withInventory (inventory m ++ [normalize item]) m)) in *.
  destruct (removeItem_spec (ArgObj item) item.["id"] m1 eq_refl)
    as [[Hall _] | (l1 & r & l2 & m2 & Hl & Hl1 & Hr & Hrm & Hinv & Hfile & _ & Hsaves)].
  { simpl in Hall. apply Forall_app in Hall as [_ Hall]. inversion_clear Hall as [|?? Hn _].
    rewrite hasId_normalize in Hn; done. }
  simpl in Hl.
  destruct (first_match_unique item.["id"] (inventory m) [] l1 l2 (normalize item) r Hl)
    as (<- & <- & <-); auto using hasId_normalize.
  rewrite app_nil_r in Hinv, Hfile.
  exists m2. split; [exact Hadd |]. split; [exact Hrm |]. split; [done |].
  split; [done |]. split; [exact Hfile |].
  rewrite Hsaves. f_equal. apply saves_persist.
Qed.

Lemma addItem_then_removeItem_witness :
  truthy item7.["id"] = true /\
  exists m1 m2,
    addItem item7 stockedManager = Ok m1 /\
    removeItem (ArgObj item7) m1 = Ok m2 /\
    inventory m2 = [item5].
Proof.
  split; [reflexivity |].
  destruct (addItem_then_removeItem item7 stockedManager eq_refl)
    as (m1 & m2 & H1 & H2 & _ & H3 & _).
  - change (inventory stockedManager) with [item5].
    constructor; [reflexivity | constructor].
  - exists m1, m2. split; [exact H1 |]. split; [exact H2 | exact H3].
Defined.

(** ** What every operation keeps *)

Section Kept.
Implicit Types (m : Manager) (api : Remote).

Lemma buyItemsCallback_cacheOk reply m (out : Settled Obj) m' :
  cacheOk (inventory m) -> buyItemsCallback reply m = (out, m') ->
  cacheOk (inventory m').
Proof.
  intros Hok. unfold buyItemsCallback. destruct reply as [[err|] [|first rest]];
    try (by intros [= <- <-]).
  destruct (addItem _ m) as [m2|e] eqn:Hadd; intros [= <- <-]; [| done].
  by eapply addItem_cacheOk.
Qed.

Lemma buy_cacheOk (args : Obj) api m :
  cacheOk (inventory m) -> cacheOk (inventory (buy args api m).2).
Proof.
  intros Hok. unfold buy. destruct (findByName _ _) as [r|]; [done |].
  unfold searchCallback. destruct (opskins_search api _) as [[err|] sales]; [done |].
  destruct (selectItemToBuy _ _) as [it|]; [| done].
  destruct (buyItemsCallback _ _) as [out m'] eqn:Hcb.
  by eapply buyItemsCallback_cacheOk; [| exact Hcb].
Qed.

Lemma withdraw_cacheOk (item : Obj) api m :
  cacheOk (inventory m) -> cacheOk (inventory (withdraw item api m).2).
Proof.
  intros Hok. unfold withdraw, withdrawRequest.
  destruct (removeItem (ArgObj item) m) as [m1|e] eqn:Hrm; simpl; [| done].
  pose proof (removeItem_cacheOk _ _ _ Hok Hrm) as Hok1.
  unfold withdrawCallback.
  destruct (opskins_withdrawInventoryItems api _) as [[err|] [|offer rest]];
    try done.
  - destruct (addItem item _) as [m2|e] eqn:Hadd; [| done].
    by eapply addItem_cacheOk; [| exact Hadd].
  - destruct (addItem item _) as [m2|e] eqn:Hadd; [| done].
    by eapply addItem_cacheOk; [| exact Hadd].
Qed.

Lemma operate_cacheOk op m :
  cacheOk (inventory m) -> cacheOk (inventory (operate op m)).
Proof.
  destruct op; simpl; auto using cacheCall_cacheOk, buy_cacheOk, withdraw_cacheOk.
Qed.

Lemma session_cacheOk ops m :
  cacheOk (inventory m) -> cacheOk (inventory (session ops m)).
Proof.
  revert m. induction ops as [|op ops IH]; intros m Hok; [done |].
  simpl. by apply IH, operate_cacheOk.
Qed.

Lemma addItems_cacheOk visited m :
  cacheOk (inventory m) -> cacheOk (inventory (addItems visited m)).
Proof.
  revert m. induction visited as [|item rest IH]; intros m Hok; simpl; [done |].
  destruct (addItem item m) as [m'|e] eqn:Hadd; [| done].
  apply IH. by eapply addItem_cacheOk.
Qed.

Lemma setInventory_cacheOk api m :
  match files (world m) !! inventoryFile m with
  | Some saved => cacheOk saved
  | None => True
  end ->
  cacheOk (inventory (setInventory api m)).
Proof.
  unfold setInventory, FileStorage_read.
  change (inventoryFile (withInventory [] m)) with (inventoryFile m).
  change (world (withInventory [] m)) with (world m).
  destruct (files (world m) !! inventoryFile m) as [saved|]; [done |].
  intros _. assert (cacheOk (@nil Obj)) as Hnil by (split; [exact I | constructor]).
  unfold getInventory.
  destruct (opskins_getInventory api) as [[err|] [fetched|]]; try exact Hnil.
  by apply addItems_cacheOk.
Qed.

Lemma OpskinsManager_ok (options : Obj) api w :
  truthy options.["apiKey"] = true ->
  OpskinsManager options api w
  = (Ok (setInventory api (initialManager options w)),
     world (setInventory api (initialManager options w))).
Proof. intros Hkey. unfold OpskinsManager. by rewrite Hkey. Qed.
End Kept.

(** X8. [buy] and [withdraw] keep the invariant of the cache too: when
    there is no persisted file, or the persisted list has truthy,
    pairwise distinct ids, the cache has truthy, pairwise distinct ids
    after the constructor and any sequence of operations. *)
Theorem cache_invariant_across_operations (options : Obj) (api : Remote)
    (w : World) (ops : list Operation) :
  truthy options.["apiKey"] = true ->
  match files w !! inventoryFile (initialManager options w) with
  | Some saved => cacheOk saved
  | None => True
  end ->
  exists m,
    OpskinsManager options api w = (Ok m, world m) /\
    cacheOk (inventory (session ops m)).
Proof.
  intros Hkey Hsaved. eexists. split; [by apply OpskinsManager_ok |].
  by apply session_cacheOk, setInventory_cacheOk.
Qed.

Lemma cache_invariant_across_operations_witness :
  truthy keyOnly.["apiKey"] = true /\
  files world0 !! inventoryFile (initialManager keyOnly world0) = None /\
  exists m,
    OpskinsManager keyOnly (remoteOwning [item5; item5; item7]) world0
    = (Ok m, world m) /\
    cacheOk (inventory (session [DoBuy {[ "name" := JStr "A" ]} sellingRemote;
                                 DoWithdraw item7 refusingRemote] m)).
Proof.
  split; [reflexivity |]. split; [reflexivity |].
  apply (cache_invariant_across_operations keyOnly
           (remoteOwning [item5; item5; item7]) world0); [reflexivity | exact I].
Defined.

(** X9. When a persisted file exists, the constructor adopts its content
    as the cache as it is (nothing is checked, dropped or normalized),
    reads the store once, writes nothing and issues no request. *)
Theorem startup_adopts_persisted_file (options : Obj) (api : Remote) (w : World)
    (saved : list Obj) :
  truthy options.["apiKey"] = true ->
  files w !! inventoryFile (initialManager options w) = Some saved ->
  exists m,
    OpskinsManager options api w = (Ok m, world m) /\
    inventory m = saved /\
    files (world m) = files w /\
    calls (world m) = calls w ++ [FsRead (inventoryFile (initialManager options w))].
Proof.
  intros Hkey Hfile. eexists. split; [by apply OpskinsManager_ok |].
  unfold setInventory, FileStorage_read.
  change (inventoryFile (withInventory [] (initialManager options w)))
    with (inventoryFile (initialManager options w)).
  change (world (withInventory [] (initialManager options w))) with w.
  by rewrite Hfile.
Qed.

Lemma startup_adopts_persisted_file_witness :
  let w := {| files := {[ "inventory_key_730_2.json" := [item7; item7] ]};
              calls := [] |} in
  truthy keyOnly.["apiKey"] = true /\
  files w !! inventoryFile (initialManager keyOnly w) = Some [item7; item7] /\
  exists m,
    OpskinsManager keyOnly sellingRemote w = (Ok m, world m) /\
    inventory m = [item7; item7] /\
    remoteCalls (calls (world m)) = [].
Proof.
  intros w. split; [reflexivity |]. split; [reflexivity |].
  destruct (startup_adopts_persisted_file keyOnly sellingRemote w [item7; item7]
              eq_refl eq_refl) as (m & Hm & Hinv & _ & Hcalls).
  exists m. split; [exact Hm |]. split; [exact Hinv |]. by rewrite Hcalls.
Defined.

(** ** Purchases that go through *)

Lemma buy_purchased (args : Obj) api m sales itemToBuy first rest :
  let name := args.["name"] in
  let query := searchQuery name args.["max"] m in
  let ids := [itemToBuy.["id"]] in
  let total := ToNumber itemToBuy.["amount"] in
  findByName name (inventory m) = None ->
  opskins_search api query = (None, sales) ->
  selectItemToBuy name (default [] sales) = Some itemToBuy ->
  opskins_buyItems api ids total = (None, first :: rest) ->
  buy args api m =
  match addItem (boughtItem first m)
          (requested (ApiBuyItems ids total) (requested (ApiSearch query) m)) with
  | Ok m' => (Resolved (boughtItem first m), m')
  | Throw e =>
      (CallbackThrew e, requested (ApiBuyItems ids total) (requested (ApiSearch query) m))
  end.
Proof.
  intros name query ids total Hfind Hsearch Hsel Hbuy.
  unfold buy. fold name. rewrite Hfind. fold query. rewrite Hsearch.
  unfold searchCallback. rewrite Hsel. fold ids total. rewrite Hbuy. reflexivity.
Qed.

(** X11. A purchase that goes through: when the name is not cached, the
    search succeeds, an item is selected and the purchase reply carries
    a truthy new id that no cached record matches, [buy] resolves to the
    record (new id, reported name, the manager's app and context ids),
    appends exactly that record to the cache and persists it, after one
    search and one purchase request, in this order. *)
Theorem buy_caches_purchased_item (args : Obj) (api : Remote) (m : Manager)
    (sales : option (list Obj)) (itemToBuy first : Obj) (rest : list Obj) :
  let name := args.["name"] in
  let query := searchQuery name args.["max"] m in
  let ids := [itemToBuy.["id"]] in
  let total := ToNumber itemToBuy.["amount"] in
  let item := boughtItem first m in
  findByName name (inventory m) = None ->
  opskins_search api query = (None, sales) ->
  selectItemToBuy name (default [] sales) = Some itemToBuy ->
  opskins_buyItems api ids total = (None, first :: rest) ->
  truthy first.["new_itemid"] = true ->
  Forall (fun r => hasId first.["new_itemid"] r = false) (inventory m) ->
  exists m',
    buy args api m = (Resolved item, m') /\
    inventory m' = inventory m ++ [item] /\
    files (world m') !! inventoryFile m = Some (inventory m ++ [item]) /\
    calls (world m')
    = calls (world m) ++ [ApiSearch query; ApiBuyItems ids total;
                          FsSave (inventoryFile m) (inventory m ++ [item])].
Proof.
  intros name query ids total item Hfind Hsearch Hsel Hbuy Ht Hfresh.
  rewrite (buy_purchased args api m sales itemToBuy first rest Hfind Hsearch Hsel Hbuy).
  fold name query ids total item.
  rewrite addItem_fresh; [| exact Ht | exact Hfresh].
  change (normalize item) with item.
  eexists. split; [reflexivity |]. split; [reflexivity |]. split.
  - simpl. apply lookup_insert_eq.
  - simpl. by rewrite <- !app_assoc.
Qed.

Lemma buy_caches_purchased_item_witness :
  let item : Obj :=
    {[ "id" := JNum 11; "name" := JStr "A"; "appid" := JNum 730; "contextid" := JNum 2 ]} in
  findByName (JStr "A") (inventory stockedManager) = None /\
  exists m',
    buy {[ "name" := JStr "A" ]} sellingRemote stockedManager = (Resolved item, m') /\
    inventory m' = [item5; item].
Proof.
  intros item. split; [reflexivity |].
  destruct (buy_caches_purchased_item {[ "name" := JStr "A" ]} sellingRemote
              stockedManager (Some [saleA1; saleB2; saleA3]) saleA1
              {[ "new_itemid" := JNum 11; "name" := JStr "A" ]} [])
    as (m' & Hbuy & Hinv & _); try reflexivity.
  - change (inventory stockedManager) with [item5].
    constructor; [reflexivity | constructor].
  - exists m'. split; [exact Hbuy | exact Hinv].
Defined.

(** X12. When the purchase reply carries a new id that is falsy, or that
    a cached record already matches, [buy] still resolves to the record
    built from the reply, but the cache and the files are left as they
    were: the item resolved to is not cached. *)
Theorem buy_resolves_without_caching (args : Obj) (api : Remote) (m : Manager)
    (sales : option (list Obj)) (itemToBuy first : Obj) (rest : list Obj) :
  let name := args.["name"] in
  let query := searchQuery name args.["max"] m in
  let ids := [itemToBuy.["id"]] in
  let total := ToNumber itemToBuy.["amount"] in
  findByName name (inventory m) = None ->
  opskins_search api query = (None, sales) ->
  selectItemToBuy name (default [] sales) = Some itemToBuy ->
  opskins_buyItems api ids total = (None, first :: rest) ->
  truthy first.["new_itemid"] = false \/
  (exists s, s ∈ inventory m /\ hasId first.["new_itemid"] s = true) ->
  exists m',
    buy args api m = (Resolved (boughtItem first m), m') /\
    inventory m' = inventory m /\
    files (world m') = files (world m) /\
    calls (world m') = calls (world m) ++ [ApiSearch query; ApiBuyItems ids total].
Proof.
  intros name query ids total Hfind Hsearch Hsel Hbuy Hskip.
  rewrite (buy_purchased args api m sales itemToBuy first rest Hfind Hsearch Hsel Hbuy).
  fold name query ids total.
  rewrite addItem_ignored by exact Hskip.
  eexists. split; [reflexivity |]. split; [reflexivity |]. split; [reflexivity |].
  simpl. by rewrite <- app_assoc.
Qed.

Lemma buy_resolves_without_caching_witness :
  findByName (JStr "A") (inventory stockedManager) = None /\
  exists r m',
    buy {[ "name" := JStr "A" ]} vagueRemote stockedManager = (Resolved r, m') /\
    r.["id"] = JUndefined /\
    inventory m' = [item5].
Proof.
  split; [reflexivity |].
  destruct (buy_resolves_without_caching {[ "name" := JStr "A" ]} vagueRemote
              stockedManager (Some [saleA1; saleB2; saleA3]) saleA1
              {[ "name" := JStr "A" ]} [])
    as (m' & Hbuy & Hinv & _); try reflexivity.
  - left. reflexivity.
  - eexists _, m'. split; [exact Hbuy |]. split; [reflexivity | exact Hinv].
Defined.

(** X13. Buying twice buys once: after a purchase that was cached, under
    a name [==] to the requested one, the same [buy] resolves to the
    same record from the cache, against any platform, with the manager
    unchanged (no request, no write). *)
Theorem buy_again_returns_cached_item (args : Obj) (api api' : Remote) (m : Manager)
    (sales : option (list Obj)) (itemToBuy first : Obj) (rest : list Obj) :
  let name := args.["name"] in
  let query := searchQuery name args.["max"] m in
  findByName name (inventory m) = None ->
  opskins_search api query = (None, sales) ->
  selectItemToBuy name (default [] sales) = Some itemToBuy ->
  opskins_buyItems api [itemToBuy.["id"]] (ToNumber itemToBuy.["amount"])
  = (None, first :: rest) ->
  truthy first.["new_itemid"] = true ->
  Forall (fun r => hasId first.["new_itemid"] r = false) (inventory m) ->
  looseEq first.["name"] name = true ->
  exists m',
    buy args api m = (Resolved (boughtItem first m), m') /\
    buy args api' m' = (Resolved (boughtItem first m), m').
Proof.
  intros name query Hfind Hsearch Hsel Hbuy Ht Hfresh Hname.
  rewrite (buy_purchased args api m sales itemToBuy first rest Hfind Hsearch Hsel Hbuy).
  rewrite addItem_fresh; [| exact Ht | exact Hfresh].
  change (normalize (boughtItem first m)) with (boughtItem first m).
  eexists. split; [reflexivity |].
  unfold buy. fold name. simpl inventory.
  rewrite findByName_app, Hfind. simpl.
  change (boughtItem first m).["name"] with first.["name"]. by rewrite Hname.
Qed.

Lemma buy_again_returns_cached_item_witness :
  findByName (JStr "A") (inventory sampleManager) = None /\
  exists r m',
    buy {[ "name" := JStr "A" ]} sellingRemote sampleManager = (Resolved r, m') /\
    buy {[ "name" := JStr "A" ]} refusingRemote m' = (Resolved r, m').
Proof.
  split; [reflexivity |].
  destruct (buy_again_returns_cached_item {[ "name" := JStr "A" ]} sellingRemote
              refusingRemote sampleManager (Some [saleA1; saleB2; saleA3]) saleA1
              {[ "new_itemid" := JNum 11; "name" := JStr "A" ]} [])
    as (m' & H1 & H2); try reflexivity.
  - constructor.
  - eexists _, m'. split; [exact H1 | exact H2].
Defined.

(** ** Withdrawing a cached record *)

Lemma cacheOk_only_match (l1 l2 : list Obj) (r : Obj) :
  cacheOk (l1 ++ r :: l2) ->
  hasId r.["id"] r = true /\
  Forall (fun s => hasId r.["id"] s = false) (l1 ++ l2).
Proof.
  intros [Hd Ht]. split.
  { apply looseEq_refl. rewrite Forall_forall in Ht. apply Ht.
    apply elem_of_app. right. by left. }
  clear Ht. induction l1 as [|x l1 IH]; simpl in *.
  - tauto.
  - destruct Hd as [Hx Hd]. constructor; [| by apply IH].
    apply Forall_app in Hx as [_ Hx]. inversion_clear Hx as [|?? Hr _].
    by rewrite hasId_sym.
Qed.

Lemma removeItem_cached (item : Obj) (m : Manager) (r : Obj) :
  cacheOk (inventory m) -> r ∈ inventory m -> item.["id"] = r.["id"] ->
  exists l1 l2,
    inventory m = l1 ++ r :: l2 /\
    removeItem (ArgObj item) m = Ok (persist (withInventory (l1 ++ l2) m)) /\
    truthy item.["id"] = true /\
    Forall (fun s => hasId item.["id"] s = false) (l1 ++ l2).
Proof.
  intros Hok Hr Hid. apply list_elem_of_split in Hr as (l1 & l2 & Hl).
  rewrite Hl in Hok. destruct (cacheOk_only_match l1 l2 r Hok) as [Hrr Hothers].
  exists l1, l2. split; [done |].
  pose proof (removeItem_cases (ArgObj item) m) as Hc. simpl in Hc.
  rewrite Hid in *. apply Forall_app in Hothers as Hsplit. destruct Hsplit as [H1 H2].
  destruct Hc as [[Hall _] | (l1' & r' & l2' & Hl' & Hall & Hr' & Hc)].
  - rewrite Hl in Hall. apply Forall_app in Hall as [_ Hall].
    inversion_clear Hall. congruence.
  - rewrite Hl in Hl'.
    destruct (first_match_unique r.["id"] l1 l2 l1' l2' r r' Hl') as (<- & <- & <-); auto.
    split; [done |]. split; [| done].
    destruct Hok as [_ Ht]. rewrite Forall_forall in Ht. apply Ht.
    apply elem_of_app. right. by left.
Qed.

(** X14. Withdrawing a cached record when the platform reports no
    error: in a cache with truthy, pairwise distinct ids, for an item
    carrying the id of the cached record [r], that record alone is
    removed and the removal persisted, it is not added back, and no
    record matching the id is left, whether the promise resolves to the
    summary of the first offer or, with no offer in the reply, never
    settles. *)
Theorem withdraw_success_removes_item (item : Obj) (api : Remote) (m : Manager)
    (r : Obj) (offers : list Offer) :
  cacheOk (inventory m) -> r ∈ inventory m -> item.["id"] = r.["id"] ->
  opskins_withdrawInventoryItems api [item.["id"]] = (None, offers) ->
  exists l1 l2 m',
    inventory m = l1 ++ r :: l2 /\
    withdraw item api m
    = (match offers with
       | [] => CallbackThrew (TypeError "Cannot read property 'items' of undefined")
       | offer :: _ =>
           Resolved {| items := offer_items offer;
                       bot_id := offer_bot_id offer;
                       id := offer_tradeoffer_id offer;
                       tradeoffer_error := offer_tradeoffer_error offer |}
       end, m') /\
    inventory m' = l1 ++ l2 /\
    files (world m') !! inventoryFile m = Some (l1 ++ l2) /\
    forall s, s ∈ inventory m' -> hasId item.["id"] s = false.
Proof.
  intros Hok Hr Hid Hreply.
  destruct (removeItem_cached item m r Hok Hr Hid) as (l1 & l2 & Hl & Hrm & _ & Hgone).
  exists l1, l2. eexists. split; [done |].
  unfold withdraw. rewrite (withdrawRequest_removeItem _ _ _ Hrm), Hreply.
  unfold withdrawCallback. split; [by destruct offers |].
  split; [reflexivity |]. split.
  - simpl. apply lookup_insert_eq.
  - simpl. by apply Forall_forall.
Qed.

Lemma withdraw_success_removes_item_witness :
  item5 ∈ inventory stockedManager /\
  exists m',
    withdraw item5 sellingRemote stockedManager
    = (Resolved {| items := []; bot_id := JNum 42; id := JNum 1001;
                   tradeoffer_error := JNull |}, m') /\
    inventory m' = [].
Proof.
  assert (item5 ∈ inventory stockedManager) as Hin
    by (change (inventory stockedManager) with [item5]; left).
  split; [exact Hin |].
  destruct (withdraw_success_removes_item item5 sellingRemote stockedManager item5
              (snd (opskins_withdrawInventoryItems sellingRemote [JNum 5])))
    as (l1 & l2 & m' & Hl & Hw & Hinv & _); try reflexivity; try exact Hin.
  - change (inventory stockedManager) with [item5].
    split; [split; [constructor | exact I] |]. constructor; [reflexivity | constructor].
  - exists m'. split; [exact Hw |]. rewrite Hinv.
    change (inventory stockedManager) with [item5] in Hl.
    destruct l1 as [|x [|y l1]]; [| destruct l2; discriminate Hl | discriminate Hl].
    injection Hl as <-. reflexivity.
Defined.

(** X15. What the compensation restores: under the same conditions but
    with a failing request, the cached record [r] is replaced by the
    normalized record of the argument, placed at the end of the cache;
    the fields of [r] that the argument lacks are lost, and the other
    records keep their order. *)
Theorem withdraw_failure_moves_item_last (item : Obj) (api : Remote) (m : Manager)
    (r : Obj) (err : JsError) (offers : list Offer) :
  cacheOk (inventory m) -> r ∈ inventory m -> item.["id"] = r.["id"] ->
  opskins_withdrawInventoryItems api [item.["id"]] = (Some err, offers) ->
  exists l1 l2 m',
    inventory m = l1 ++ r :: l2 /\
    withdraw item api m = (Rejected err, m') /\
    inventory m' = l1 ++ l2 ++ [normalize item] /\
    files (world m') !! inventoryFile m = Some (inventory m').
Proof.
  intros Hok Hr Hid Hreply.
  destruct (removeItem_cached item m r Hok Hr Hid) as (l1 & l2 & Hl & Hrm & Ht & Hgone).
  exists l1, l2. eexists. split; [done |].
  unfold withdraw. rewrite (withdrawRequest_removeItem _ _ _ Hrm), Hreply.
  unfold withdrawCallback. rewrite addItem_fresh; [| exact Ht | exact Hgone].
  split; [reflexivity |]. split.
  - simpl. by rewrite <- app_assoc.
  - simpl. apply lookup_insert_eq.
Qed.

Lemma withdraw_failure_moves_item_last_witness :
  let m := cacheCalls [CallAddItem item5; CallAddItem item7] sampleManager in
  let ref : Obj := {[ "id" := JNum 5 ]} in
  inventory m = [item5; item7] /\
  exists m',
    withdraw ref refusingRemote m = (Rejected (Error "Bad Request"), m') /\
    inventory m' = [item7; normalize ref] /\
    (normalize ref).["name"] = JUndefined.
Proof.
  intros m ref. split; [reflexivity |].
  assert (cacheOk (inventory m)) as Hok.
  { apply cacheCalls_cacheOk. split; [exact I | constructor]. }
  assert (item5 ∈ inventory m) as Hin
    by (change (inventory m) with [item5; item7]; left).
  destruct (withdraw_failure_moves_item_last ref refusingRemote m item5
              (Error "Bad Request") [] Hok Hin eq_refl eq_refl)
    as (l1 & l2 & m' & Hl & Hw & Hinv & _).
  exists m'. split; [exact Hw |]. split; [| reflexivity].
  apply (f_equal snd) in Hw. simpl in Hw. rewrite <- Hw. reflexivity.
Defined.

(** ** File names *)

Lemma string_append_cons (a : ascii) (s t : string) :
  String a s +:+ t = String a (s +:+ t).
Proof. reflexivity. Qed.

Lemma string_append_assoc (s1 s2 s3 : string) : (s1 +:+ s2) +:+ s3 = s1 +:+ s2 +:+ s3.
Proof.
  induction s1 as [|a s1 IH]; [reflexivity |].
  by rewrite !string_append_cons, IH.
Qed.

Lemma occursIn_append c (s1 s2 : string) :
  occursIn c (s1 +:+ s2) <-> occursIn c s1 \/ occursIn c s2.
Proof.
  induction s1 as [|a s1 IH].
  - change ("" +:+ s2) with s2. simpl. tauto.
  - rewrite string_append_cons. simpl. tauto.
Qed.

(** Two strings that agree split alike at their last [c]. *)
Lemma split_at_last c (s1 s2 a a' : string) :
  s1 +:+ String c a = s2 +:+ String c a' ->
  ~ occursIn c a -> ~ occursIn c a' ->
  s1 = s2 /\ a = a'.
Proof.
  intros Heq Ha Ha'. revert s2 Heq. induction s1 as [|d s1 IH]; intros s2 Heq.
  - destruct s2 as [|d' s2].
    + change ("" +:+ String c a) with (String c a) in Heq.
      change ("" +:+ String c a') with (String c a') in Heq.
      by injection Heq as ->.
    + change ("" +:+ String c a) with (String c a) in Heq.
      rewrite string_append_cons in Heq. injection Heq as -> ->.
      destruct Ha. apply occursIn_append. right. by left.
  - destruct s2 as [|d' s2].
    + change ("" +:+ String c a') with (String c a') in Heq.
      rewrite string_append_cons in Heq. injection Heq as -> <-.
      destruct Ha'. apply occursIn_append. right. by left.
    + rewrite !string_append_cons in Heq. injection Heq as -> Heq.
      destruct (IH s2 Heq) as [-> ->]. done.
Qed.

Lemma pretty_N_go_free c (x : N) (s : string) :
  (forall n, pretty_N_char n <> c) ->
  ~ occursIn c s -> ~ occursIn c (pretty_N_go x s).
Proof.
  intros Hc. revert s. induction (N.lt_wf_0 x) as [x _ IH]; intros s Hs.
  assert (x = 0 \/ 0 < x)%N as [-> | Hpos] by lia.
  - by rewrite pretty_N_go_0.
  - rewrite pretty_N_go_step by done. apply IH.
    + by apply N.div_lt.
    + simpl. intros [Hd | Hin]; [by apply (Hc (x `mod` 10)%N) | done].
Qed.

Lemma pretty_Z_free c (n : Z) :
  (forall k, pretty_N_char k <> c) -> c <> "-"%char ->
  ~ occursIn c (pretty n).
Proof.
  intros Hc Hdash.
  assert (forall p : positive, ~ occursIn c (pretty p)) as Hpos.
  { intros p. unfold pretty, pretty_positive, pretty, pretty_N.
    rewrite decide_False by done. apply pretty_N_go_free; [done | simpl; tauto]. }
  destruct n as [|p|p]; unfold pretty, pretty_Z.
  - simpl. intros [H | []]. by apply (Hc 0%N).
  - apply Hpos.
  - rewrite string_append_cons. simpl. intros [H | H]; [congruence |].
    by apply (Hpos p).
Qed.

Lemma pretty_N_char_not_underscore k : pretty_N_char k <> "_"%char.
Proof. unfold pretty_N_char. by repeat case_match. Qed.

Lemma pretty_Z_no_underscore (n : Z) : ~ occursIn "_" (pretty n).
Proof. apply pretty_Z_free; [apply pretty_N_char_not_underscore | done]. Qed.

(** X16. Managers whose app and context ids are integers share a file
    name only if they have the same key (as a string), the same app id
    and the same context id. *)
Theorem inventoryFile_injective (m m' : Manager) (a c a' c' : Z) :
  appID m = JNum a -> contextID m = JNum c ->
  appID m' = JNum a' -> contextID m' = JNum c' ->
  inventoryFile m = inventoryFile m' ->
  ToString (apiKey m) = ToString (apiKey m') /\ a = a' /\ c = c'.
Proof.
  intros Ha Hc Ha' Hc'. unfold inventoryFile. rewrite Ha, Hc, Ha', Hc'. simpl ToString.
  set (k := ToString (apiKey m)). set (k' := ToString (apiKey m')).
  intros Heq. apply (inj (String.append "inventory_")) in Heq.
  (* the context id follows the last underscore *)
  rewrite <- !(string_append_assoc k "_" _), <- !(string_append_assoc k' "_" _) in Heq.
  rewrite <- !(string_append_assoc _ (pretty a) _), <- !(string_append_assoc _ (pretty a') _) in Heq.
  change ("_" +:+ pretty c +:+ ".json") with (String "_" (pretty c +:+ ".json")) in Heq.
  change ("_" +:+ pretty c' +:+ ".json") with (String "_" (pretty c' +:+ ".json")) in Heq.
  assert (forall n : Z, ~ occursIn "_" (pretty n +:+ ".json")) as Hfree.
  { intros n. rewrite occursIn_append. intros [H | H].
    - by apply (pretty_Z_no_underscore n).
    - simpl in H. repeat (destruct H as [H | H]; [discriminate H |]). done. }
  apply split_at_last in Heq as [Heq Hctx]; [| apply Hfree | apply Hfree].
  (* the app id follows the underscore before *)
  rewrite !(string_append_assoc k "_" _), !(string_append_assoc k' "_" _) in Heq.
  change ("_" +:+ pretty a) with (String "_" (pretty a)) in Heq.
  change ("_" +:+ pretty a') with (String "_" (pretty a')) in Heq.
  apply split_at_last in Heq as [Hkey Happ];
    [| apply pretty_Z_no_underscore | apply pretty_Z_no_underscore].
  split; [done |]. split; [by apply (inj pretty) |].
  change (pretty c +:+ ".json") with (pretty c +:+ String "." "json") in Hctx.
  change (pretty c' +:+ ".json") with (pretty c' +:+ String "." "json") in Hctx.
  apply split_at_last in Hctx as [Hctx _].
  - by apply (inj pretty).
  - simpl. intros H. repeat (destruct H as [H | H]; [discriminate H |]). done.
  - simpl. intros H. repeat (destruct H as [H | H]; [discriminate H |]). done.
Qed.

Lemma inventoryFile_injective_witness :
  appID sampleManager = JNum 730 /\ contextID sampleManager = JNum 2 /\
  inventoryFile sampleManager = inventoryFile stockedManager /\
  ToString (apiKey sampleManager) = ToString (apiKey stockedManager).
Proof.
  split; [reflexivity |]. split; [reflexivity |]. split; [reflexivity |].
  apply (inventoryFile_injective sampleManager stockedManager 730 2 730 2);
    reflexivity.
Defined.

(** With an app id given as a string the names can collide. *)
Example inventoryFile_collision :
  inventoryFile (emptyManager (JStr "a_1") (JNum 2) (JNum 3) world0)
  = inventoryFile (emptyManager (JStr "a") (JStr "1_2") (JNum 3) world0).
Proof. reflexivity. Qed.
